(** * jsonschema-go: JSON Schema generation from Go struct types

    A shallow embedding of the generator (schema generation, type mapping
    and struct-tag parsing) together with the properties its specification
    states about it.

    Go strings are byte sequences, so they are modelled by [string] (a list
    of 8-bit [ascii] values).  A [map[string]any] is a [gmap string value].
    Type descriptors ([reflect.Type]) are finite trees: the generator only
    ever looks at the kind of a type, at its element and key types and at
    its fields.  Self-referential type graphs, which the specification lists
    as unsupported, have no representation here. *)

From Stdlib Require Import ZArith String Ascii List Bool Lia.
From stdpp Require Import gmap strings list fin_maps.

Set Warnings "-register-all".
Open Scope string_scope.

(** ** The parts of Go's [strings] package the generator calls *)

Module GoStrings.

(** [strings.Contains(s, substr)]. *)
Fixpoint Contains (s substr : string) : bool :=
  String.prefix substr s ||
  match s with
  | EmptyString => false
  | String _ s' => Contains s' substr
  end.

(** [strings.Split(s, sep)] for a one-byte separator, which is what both
    call sites pass.  The result always has at least one element. *)
Fixpoint Split (s : string) (sep : ascii) : list string :=
  match s with
  | EmptyString => [EmptyString]
  | String c s' =>
      let r := Split s' sep in
      if Ascii.eqb c sep then EmptyString :: r
      else String c (hd EmptyString r) :: tl r
  end.

(** Cut [s] around the first occurrence of the byte [sep]. *)
Fixpoint Cut (s : string) (sep : ascii) : option (string * string) :=
  match s with
  | EmptyString => None
  | String c s' =>
      if Ascii.eqb c sep then Some (EmptyString, s')
      else match Cut s' sep with
           | Some (before, after) => Some (String c before, after)
           | None => None
           end
  end.

(** [strings.SplitN(s, sep, n)] for a one-byte separator and [n >= 0]:
    at most [n] pieces, the last one holding the unsplit remainder. *)
Fixpoint SplitN (s : string) (sep : ascii) (n : nat) : list string :=
  match n with
  | 0 => []
  | 1 => [s]
  | S n' =>
      match Cut s sep with
      | Some (before, after) => before :: SplitN after sep n'
      | None => [s]
      end
  end.

(** [unicode.IsSpace] on the UTF-8 encodings of the white-space runes:
    the six ASCII ones, U+0085, U+00A0 (two bytes), and U+1680,
    U+2000..U+200A, U+2028, U+2029, U+202F, U+205F, U+3000 (three bytes).
    A byte sequence that is not valid UTF-8 decodes to U+FFFD, which is not
    white space. *)
Definition isSpace1 (c : ascii) : bool :=
  let n := N_of_ascii c in
  ((9 <=? n) && (n <=? 13) || (n =? 32))%N.

Definition isSpace2 (c1 c2 : ascii) : bool :=
  let n1 := N_of_ascii c1 in
  let n2 := N_of_ascii c2 in
  ((n1 =? 194) && ((n2 =? 133) || (n2 =? 160)))%N.

Definition isSpace3 (c1 c2 c3 : ascii) : bool :=
  let n1 := N_of_ascii c1 in
  let n2 := N_of_ascii c2 in
  let n3 := N_of_ascii c3 in
  ((n1 =? 225) && (n2 =? 154) && (n3 =? 128)
   || (n1 =? 226) && (n2 =? 128)
      && ((128 <=? n3) && (n3 <=? 138) || (n3 =? 168) || (n3 =? 169) || (n3 =? 175))
   || (n1 =? 226) && (n2 =? 129) && (n3 =? 159)
   || (n1 =? 227) && (n2 =? 128) && (n3 =? 128))%N.

(** Drop the leading white-space runes ([strings.TrimLeftFunc] with
    [unicode.IsSpace]). *)
Fixpoint TrimLeftSpace (s : string) : string :=
  match s with
  | EmptyString => EmptyString
  | String c1 r1 =>
      if isSpace1 c1 then TrimLeftSpace r1
      else
        match r1 with
        | EmptyString => s
        | String c2 r2 =>
            if isSpace2 c1 c2 then TrimLeftSpace r2
            else
              match r2 with
              | EmptyString => s
              | String c3 r3 =>
                  if isSpace3 c1 c2 c3 then TrimLeftSpace r3 else s
              end
        end
  end.

(** The same from the end of the string, on the reversed byte sequence:
    the last rune of [s] is a white-space rune exactly when [s] ends with
    one of the encodings above. *)
Fixpoint trimRev (r : list ascii) : list ascii :=
  match r with
  | [] => []
  | c1 :: r1 =>
      if isSpace1 c1 then trimRev r1
      else
        match r1 with
        | [] => r
        | c2 :: r2 =>
            if isSpace2 c2 c1 then trimRev r2
            else
              match r2 with
              | [] => r
              | c3 :: r3 =>
                  if isSpace3 c3 c2 c1 then trimRev r3 else r
              end
        end
  end.

Definition TrimRightSpace (s : string) : string :=
  string_of_list_ascii (rev (trimRev (rev (list_ascii_of_string s)))).

(** [strings.TrimSpace(s)]. *)
Definition TrimSpace (s : string) : string :=
  TrimRightSpace (TrimLeftSpace s).

End GoStrings.

(** ** The part of Go's [strconv] package the generator calls *)

Module GoStrconv.

Definition digit (c : ascii) : option Z :=
  let n := Z.of_N (N_of_ascii c) in
  if ((48 <=? n) && (n <=? 57))%Z then Some (n - 48)%Z else None.

(** Value of a run of decimal digits, [None] on any other byte. *)
Fixpoint digits (acc : Z) (s : string) : option Z :=
  match s with
  | EmptyString => Some acc
  | String c s' =>
      match digit c with
      | Some d => digits (acc * 10 + d) s'
      | None => None
      end
  end.

(** [strconv.Atoi(s)] on a 64-bit platform: an optional sign and one or
    more decimal digits, within the range of [int]; [None] stands for a
    non-nil error. *)
Definition Atoi (s : string) : option Z :=
  let '(neg, body) :=
    match s with
    | String c s' =>
        if Ascii.eqb c "-" then (true, s')
        else if Ascii.eqb c "+" then (false, s')
        else (false, s)
    | EmptyString => (false, s)
    end in
  match body with
  | EmptyString => None
  | _ =>
      match digits 0 body with
      | Some n =>
          let v := (if neg then - n else n)%Z in
          if ((- 2 ^ 63 <=? v) && (v <=? 2 ^ 63 - 1))%Z then Some v else None
      | None => None
      end
  end.

End GoStrconv.

Import GoStrings GoStrconv.

(** ** Type descriptors ([reflect.Type]) and interface values *)

(** [reflect.Kind]. *)
Inductive Kind :=
  | Invalid | Bool
  | Int | Int8 | Int16 | Int32 | Int64
  | Uint | Uint8 | Uint16 | Uint32 | Uint64 | Uintptr
  | Float32 | Float64 | Complex64 | Complex128
  | Array | Chan | Func | Interface | Map | Pointer | Slice
  | String_ | Struct | UnsafePointer.

Definition Kind_eqb (a b : Kind) : bool :=
  match a, b with
  | Invalid, Invalid | Bool, Bool
  | Int, Int | Int8, Int8 | Int16, Int16 | Int32, Int32 | Int64, Int64
  | Uint, Uint | Uint8, Uint8 | Uint16, Uint16 | Uint32, Uint32
  | Uint64, Uint64 | Uintptr, Uintptr
  | Float32, Float32 | Float64, Float64
  | Complex64, Complex64 | Complex128, Complex128
  | Array, Array | Chan, Chan | Func, Func | Interface, Interface
  | Map, Map | Pointer, Pointer | Slice, Slice
  | String_, String_ | Struct, Struct
  | UnsafePointer, UnsafePointer => true
  | _, _ => false
  end.

(** [Kind.String()], which [fmt] uses for the [%s] verb. *)
Definition Kind_String (k : Kind) : string :=
  match k with
  | Invalid => "invalid" | Bool => "bool"
  | Int => "int" | Int8 => "int8" | Int16 => "int16"
  | Int32 => "int32" | Int64 => "int64"
  | Uint => "uint" | Uint8 => "uint8" | Uint16 => "uint16"
  | Uint32 => "uint32" | Uint64 => "uint64" | Uintptr => "uintptr"
  | Float32 => "float32" | Float64 => "float64"
  | Complex64 => "complex64" | Complex128 => "complex128"
  | Array => "array" | Chan => "chan" | Func => "func"
  | Interface => "interface" | Map => "map" | Pointer => "ptr"
  | Slice => "slice" | String_ => "string" | Struct => "struct"
  | UnsafePointer => "unsafe.Pointer"
  end.

(** Kinds of types that have no component the generator could look at. *)
Inductive BasicKind :=
  | BBool
  | BInt | BInt8 | BInt16 | BInt32 | BInt64
  | BUint | BUint8 | BUint16 | BUint32 | BUint64 | BUintptr
  | BFloat32 | BFloat64 | BComplex64 | BComplex128
  | BString | BUnsafePointer.

Definition kindOfBasic (b : BasicKind) : Kind :=
  match b with
  | BBool => Bool
  | BInt => Int | BInt8 => Int8 | BInt16 => Int16
  | BInt32 => Int32 | BInt64 => Int64
  | BUint => Uint | BUint8 => Uint8 | BUint16 => Uint16
  | BUint32 => Uint32 | BUint64 => Uint64 | BUintptr => Uintptr
  | BFloat32 => Float32 | BFloat64 => Float64
  | BComplex64 => Complex64 | BComplex128 => Complex128
  | BString => String_ | BUnsafePointer => UnsafePointer
  end.

(** [reflect.StructField], over the type of type descriptors.  [Tag] holds
    the key/value pairs of the struct tag; [PkgPath] is empty for exported
    fields. *)
Record StructField (T : Type) := mkStructField {
  Name : string;
  PkgPath : string;
  Type_ : T;
  Tag : list (string * string)
}.
Arguments mkStructField {T}.
Arguments Name {T}.
Arguments PkgPath {T}.
Arguments Type_ {T}.
Arguments Tag {T}.

(** [reflect.Type].  Named types are not told apart from their underlying
    types: the generator never asks for a type's name. *)
Inductive gotype :=
  | BasicType (b : BasicKind)
  | PointerTo (elem : gotype)
  | SliceOf (elem : gotype)
  | ArrayOf (len : nat) (elem : gotype)
  | MapOf (key elem : gotype)
  | ChanOf (elem : gotype)
  | FuncType
  | InterfaceType
  | StructOf (fields : list (StructField gotype)).

(** [t.Kind()]. *)
Definition KindOf (t : gotype) : Kind :=
  match t with
  | BasicType b => kindOfBasic b
  | PointerTo _ => Pointer
  | SliceOf _ => Slice
  | ArrayOf _ _ => Array
  | MapOf _ _ => Map
  | ChanOf _ => Chan
  | FuncType => Func
  | InterfaceType => Interface
  | StructOf _ => Struct
  end.

(** [f.IsExported()]. *)
Definition IsExported {T} (f : StructField T) : bool :=
  String.eqb (PkgPath f) "".

(** [tag.Get(key)]: the value stored under [key], or the empty string. *)
Fixpoint TagGet (tag : list (string * string)) (key : string) : string :=
  match tag with
  | [] => ""
  | (k, v) :: rest => if String.eqb k key then v else TagGet rest key
  end.

(** Run-time values, as far as the entry point could tell them apart. *)
Inductive govalue :=
  | NilValue
  | PointerValue (pointee : govalue)
  | StructValue (fields : list govalue)
  | StringValue (s : string)
  | NumberValue (n : Z)
  | OpaqueValue.

(** A value of type [any]: the untyped [nil], or a dynamic type together
    with a value of that type. *)
Inductive any :=
  | untypedNil
  | iface (dynType : gotype) (data : govalue).

(** ** JSON Schema vocabulary (the constants of the package) *)

Definition TypeString := "string".
Definition TypeInteger := "integer".
Definition TypeNumber := "number".
Definition TypeBoolean := "boolean".
Definition TypeObject := "object".
Definition TypeArray := "array".

Definition PropType := "type".
Definition PropProperties := "properties".
Definition PropAdditionalProperties := "additionalProperties".
Definition PropRequired := "required".
Definition PropItems := "items".
Definition PropMinimum := "minimum".
Definition PropMaximum := "maximum".
Definition PropExclusiveMinimum := "exclusiveMinimum".
Definition PropExclusiveMaximum := "exclusiveMaximum".
Definition PropMultipleOf := "multipleOf".
Definition PropPattern := "pattern".
Definition PropFormat := "format".
Definition PropMinItems := "minItems".
Definition PropMaxItems := "maxItems".

(** ** Tag parsing that does not depend on number parsing *)

(** [parseJSONTag]: name, omitempty flag, skip flag.  [parts] is never
    empty ([Split_cons]), so the defaults of [nth] and [skipn] stand for no
    run-time failure. *)
Definition parseJSONTag (tag : string) : string * bool * bool :=
  if String.eqb tag "" then ("", false, false)
  else if String.eqb tag "-" then ("", false, true)
  else
    let parts := Split tag "," in
    let name := nth 0 parts "" in
    let omitempty :=
      fold_left
        (fun omitempty part =>
           if String.eqb (TrimSpace part) "omitempty" then true else omitempty)
        (skipn 1 parts) false in
    (name, omitempty, false).

(** [isRequiredField]. *)
Definition isRequiredField (field : StructField gotype) (omitempty : bool)
    (validationTag : string) : bool :=
  if omitempty then false
  else if Contains validationTag "required" then true
  else if negb (Contains validationTag "omitempty")
          && negb (Kind_eqb (KindOf (Type_ field)) Pointer) then true
  else false.

(** The formats [parseValidationTag] accepts. *)
Definition validFormats : gmap string bool :=
  list_to_map
    [("date-time", true); ("time", true); ("date", true); ("duration", true);
     ("email", true); ("hostname", true); ("ipv4", true); ("ipv6", true);
     ("uuid", true)].

(** A decimal-only stand-in for [strconv.ParseFloat], used to run the
    package's test scenarios: it reads what [Atoi] reads and fails on
    everything else. *)
Definition decimalParseFloat (s : string) : option Z := Atoi s.

(** ** The struct types of the package's test scenarios *)

Module Samples.

Definition field (name : string) (t : gotype) (tag : list (string * string))
    : StructField gotype :=
  mkStructField name "" t tag.

Definition TInt := BasicType BInt.
Definition TString := BasicType BString.
Definition TFloat64 := BasicType BFloat64.
Definition TBool := BasicType BBool.

Definition BasicStruct : gotype :=
  StructOf [field "Name" TString []; field "Age" TInt [];
            field "Score" TFloat64 []; field "Active" TBool []].

Definition TaggedStruct : gotype :=
  StructOf [field "ID" TInt [("json", "id")];
            field "Name" TString [("json", "name")];
            field "Email" TString [("json", "email,omitempty")];
            field "Password" TString [("json", "-")]].

Definition Address : gotype :=
  StructOf [field "Street" TString []; field "City" TString []].

Definition User : gotype :=
  StructOf [field "Name" TString []; field "Address" Address []].

Definition ValidatedStruct : gotype :=
  StructOf [field "ID" TInt [("validate", "required,minimum=1,maximum=100")];
            field "Name" TString [("validate", "required,pattern=^[a-zA-Z]+$")];
            field "Tags" (SliceOf TString) [("validate", "minItems=1,maxItems=10")];
            field "Optional" TString [("json", "optional,omitempty")];
            mkStructField "hidden" "jsonschema" TInt []].

Definition OmittedRequired : gotype :=
  StructOf [field "Age" TInt [("json", "age,omitempty");
                              ("validate", "required,minimum=0")]].

Definition ArrayStruct : gotype :=
  StructOf [field "Tags" (SliceOf TString) [];
            field "Numbers" (SliceOf TInt) [];
            field "Scores" (SliceOf TFloat64) []].

Definition MapStruct : gotype :=
  StructOf [field "Metadata" (MapOf TString TString) [];
            field "Config" (MapOf TString TInt) []].

Definition TaggedAddress : gotype :=
  StructOf [field "Street" TString [("json", "street"); ("validate", "required")];
            field "City" TString [("json", "city"); ("validate", "required")]].

Definition ComplexUser : gotype :=
  StructOf
    [field "ID" TInt [("json", "id"); ("validate", "required")];
     field "Name" TString
       [("json", "name"); ("validate", "required,pattern=^[a-zA-Z ]+$")];
     field "Email" TString
       [("json", "email");
        ("validate", "pattern=^[a-z]+@[a-z]+\.[a-z]+$,format=email")];
     field "Age" TInt
       [("json", "age,omitempty"); ("validate", "minimum=0,maximum=150")];
     field "Tags" (SliceOf TString)
       [("json", "tags"); ("validate", "minItems=0,maxItems=20")];
     field "Metadata" (MapOf TString TString) [("json", "metadata")];
     field "Address" TaggedAddress [("json", "address")]].

End Samples.

(** ** The generator *)

Section Generator.

(** [float64] and [strconv.ParseFloat(s, 64)], of which the generator only
    uses whether parsing succeeded ([None] stands for a non-nil error). *)
Variable float64 : Type.
Variable ParseFloat : string -> option float64.

(** The values a schema holds (the dynamic contents of [any]), with
    [map[string]any] as a finite map. *)
Inductive value :=
  | VString (s : string)
  | VFloat (x : float64)
  | VInt (n : Z)
  | VBool (b : bool)
  | VStrings (l : list string)
  | VMap (m : gmap string value).

(** The switch of [parseValidationTag] on the key of a [key=value] token. *)
Definition applyConstraint (constraints : gmap string value)
    (key value_ : string) : gmap string value :=
  if String.eqb key "minimum" || String.eqb key "min" then
    match ParseFloat value_ with
    | Some num => <[PropMinimum := VFloat num]> constraints
    | None => constraints
    end
  else if String.eqb key "maximum" || String.eqb key "max" then
    match ParseFloat value_ with
    | Some num => <[PropMaximum := VFloat num]> constraints
    | None => constraints
    end
  else if String.eqb key "exclusiveMinimum" then
    match ParseFloat value_ with
    | Some num => <[PropExclusiveMinimum := VFloat num]> constraints
    | None => constraints
    end
  else if String.eqb key "exclusiveMaximum" then
    match ParseFloat value_ with
    | Some num => <[PropExclusiveMaximum := VFloat num]> constraints
    | None => constraints
    end
  else if String.eqb key "multipleOf" then
    match ParseFloat value_ with
    | Some num => <[PropMultipleOf := VFloat num]> constraints
    | None => constraints
    end
  else if String.eqb key "pattern" then
    <[PropPattern := VString value_]> constraints
  else if String.eqb key "format" then
    if default false (validFormats !! value_)
    then <[PropFormat := VString value_]> constraints
    else constraints
  else if String.eqb key "minItems" then
    match Atoi value_ with
    | Some num => <[PropMinItems := VInt num]> constraints
    | None => constraints
    end
  else if String.eqb key "maxItems" then
    match Atoi value_ with
    | Some num => <[PropMaxItems := VInt num]> constraints
    | None => constraints
    end
  else constraints.

(** The body of the loop of [parseValidationTag] on one comma-separated
    part.  Under the [Contains] test [kv] has two elements ([SplitN_two]),
    so the default of [nth] is never used. *)
Definition parsePart (constraints : gmap string value) (part : string)
    : gmap string value :=
  let part := TrimSpace part in
  if String.eqb part "" then constraints
  else if Contains part "=" then
    let kv := SplitN part "=" 2 in
    let key := TrimSpace (nth 0 kv "") in
    let value_ := TrimSpace (nth 1 kv "") in
    applyConstraint constraints key value_
  else constraints.

(** [parseValidationTag]. *)
Definition parseValidationTag (tag : string) : gmap string value :=
  if String.eqb tag "" then ∅
  else fold_left parsePart (Split tag ",") ∅.

(** [getTypeSchema]; [None] is the nil map of the default case. *)
Definition getTypeSchema (t : gotype) : option (gmap string value) :=
  match KindOf t with
  | String_ => Some {[ PropType := VString TypeString ]}
  | Int | Int8 | Int16 | Int32 | Int64 =>
      Some {[ PropType := VString TypeInteger ]}
  | Uint | Uint8 | Uint16 | Uint32 | Uint64 =>
      Some {[ PropType := VString TypeInteger ]}
  | Float32 | Float64 => Some {[ PropType := VString TypeNumber ]}
  | Bool => Some {[ PropType := VString TypeBoolean ]}
  | _ => None
  end.

(** The loop [for key, value := range constraints { fieldSchema[key] = value }]. *)
Definition mergeConstraints (constraints fieldSchema : gmap string value)
    : gmap string value :=
  map_fold (fun key value_ fieldSchema => <[key := value_]> fieldSchema)
           fieldSchema constraints.

(** One iteration of the loop of [generateStructSchema] over the fields.
    The state is the map stored under [schema[PropProperties]], which the
    source updates in place, and the [required] slice; [generateSchema] is
    the mutually recursive type mapper. *)
Definition structField (generateSchema : gotype -> gmap string value)
    (st : gmap string value * list string) (field : StructField gotype)
    : gmap string value * list string :=
  let '(props, required) := st in
  if negb (IsExported field) then st
  else
    let '(jsonName, omitempty, skip) := parseJSONTag (TagGet (Tag field) "json") in
    if skip then st
    else
      let jsonName := if String.eqb jsonName "" then Name field else jsonName in
      let fieldSchema := generateSchema (Type_ field) in
      let validationTag := TagGet (Tag field) "validate" in
      let fieldSchema :=
        if negb (String.eqb validationTag "")
        then mergeConstraints (parseValidationTag validationTag) fieldSchema
        else fieldSchema in
      let required :=
        if isRequiredField field omitempty validationTag
        then (required ++ [jsonName])%list else required in
      (<[jsonName := VMap fieldSchema]> props, required).

(** Assembly of the result of [generateStructSchema] from the final state
    of its loop. *)
Definition structSchema (st : gmap string value * list string)
    : gmap string value :=
  let '(props, required) := st in
  let schema : gmap string value :=
    {[ PropType := VString TypeObject;
       PropProperties := VMap props;
       PropAdditionalProperties := VBool false ]} in
  if (0 <? List.length required)%nat
  then <[PropRequired := VStrings required]> schema
  else schema.

(** [generateSchema], with [generateStructSchema] unfolded in its struct
    case. *)
Fixpoint generateSchema (t : gotype) : gmap string value :=
  let t := match t with PointerTo elem => elem | _ => t end in
  match getTypeSchema t with
  | Some schema => schema
  | None =>
      match t with
      | SliceOf elem | ArrayOf _ elem =>
          {[ PropType := VString TypeArray;
             PropItems := VMap (generateSchema elem) ]}
      | MapOf key elem =>
          if negb (Kind_eqb (KindOf key) String_)
          then {[ PropType := VString TypeObject ]}
          else {[ PropType := VString TypeObject;
                  PropAdditionalProperties := VMap (generateSchema elem) ]}
      | StructOf fields =>
          structSchema (fold_left (structField generateSchema) fields (∅, []))
      | _ => {[ PropType := VString TypeObject ]}
      end
  end.

(** [generateStructSchema], on the fields of a struct type. *)
Definition generateStructSchema (fields : list (StructField gotype))
    : gmap string value :=
  structSchema (fold_left (structField generateSchema) fields (∅, [])).

(** [Generate]: the schema and the error, one of them absent. *)
Definition Generate (v : any) : option (gmap string value) * option string :=
  match v with
  | untypedNil => (None, Some "cannot generate schema from nil value")
  | iface dynType _ =>
      let t := dynType in
      let t := match t with PointerTo elem => elem | _ => t end in
      if negb (Kind_eqb (KindOf t) Struct)
      then (None, Some ("expected struct type, got " ++ Kind_String (KindOf t))%string)
      else (Some (generateSchema t), None)
  end.


(** *** Projections used to state the properties *)

(** The bytes of a string. *)
Definition bytesOf (s : string) : list ascii := list_ascii_of_string s.

(** The field takes part in the schema: exported and not skipped. *)
Definition visibleField (f : StructField gotype) : bool :=
  IsExported f && negb (snd (parseJSONTag (TagGet (Tag f) "json"))).

(** The name under which a field is emitted. *)
Definition propertyName (f : StructField gotype) : string :=
  let jsonName := fst (fst (parseJSONTag (TagGet (Tag f) "json"))) in
  if String.eqb jsonName "" then Name f else jsonName.

(** The schema stored for a field: its shape with its constraints merged. *)
Definition fieldSchemaOf (f : StructField gotype) : gmap string value :=
  let validationTag := TagGet (Tag f) "validate" in
  if negb (String.eqb validationTag "")
  then mergeConstraints (parseValidationTag validationTag) (generateSchema (Type_ f))
  else generateSchema (Type_ f).

(** The requiredness verdict of a field. *)
Definition fieldRequired (f : StructField gotype) : bool :=
  isRequiredField f (snd (fst (parseJSONTag (TagGet (Tag f) "json"))))
                  (TagGet (Tag f) "validate").

(** The names of the visible fields whose verdict is "required", in
    declaration order. *)
Definition requiredNames (fields : list (StructField gotype)) : list string :=
  List.map propertyName (List.filter (fun f => visibleField f && fieldRequired f) fields).

(** The type a schema describes: one level of pointer is looked through. *)
Definition deref (t : gotype) : gotype :=
  match t with PointerTo elem => elem | _ => t end.


(** The [properties] map after the loop over [fields], from [props]. *)
Definition propsAfter (fields : list (StructField gotype))
    (props : gmap string value) : gmap string value :=
  fold_left
    (fun props f =>
       if visibleField f
       then <[propertyName f := VMap (fieldSchemaOf f)]> props else props)
    fields props.

(** The keys [parseValidationTag] can store. *)
Definition constraintKeys : list string :=
  [PropMinimum; PropMaximum; PropExclusiveMinimum; PropExclusiveMaximum;
   PropMultipleOf; PropPattern; PropFormat; PropMinItems; PropMaxItems].

(** The format names of [validFormats]. *)
Definition formatNames : list string :=
  ["date-time"; "time"; "date"; "duration"; "email"; "hostname"; "ipv4";
   "ipv6"; "uuid"].

(** What one [key=value] token with value [value_] may store: under
    [pattern] the value itself, under [format] the value when it is a known
    format, and a parsed number under every other key. *)
Definition storedBy (value_ : string) (k : string) (x : value) : Prop :=
  In k constraintKeys
  /\ ((k = PropPattern /\ x = VString value_)
      \/ (k = PropFormat /\ x = VString value_ /\ In value_ formatNames)
      \/ (k <> PropPattern /\ k <> PropFormat
          /\ ((exists num, x = VFloat num /\ ParseFloat value_ = Some num)
              \/ (exists n, x = VInt n /\ Atoi value_ = Some n)))).

(** A constraint set leaves the keys of the type mapper alone. *)
Definition sparesShape (constraints : gmap string value) : Prop :=
  constraints !! PropType = None
  /\ constraints !! PropProperties = None
  /\ constraints !! PropAdditionalProperties = None
  /\ constraints !! PropItems = None.

(** The [required] list a schema carries; empty when the key is absent. *)
Definition requiredOf (schema : gmap string value) : list string :=
  match schema !! PropRequired with
  | Some (VStrings l) => l
  | _ => []
  end.

(** [recordsClosed t s] reads the schema [s] along the type [t] it was
    generated for and states, at every position of the tree that holds a
    schema derived from a struct type, that the schema has type "object",
    [additionalProperties] equal to [false] and a [properties] map, each
    entry of which is the schema stored for a visible field of that name
    and is in turn closed along that field's type. *)
Fixpoint recordsClosed (t : gotype) (s : gmap string value) {struct t} : Prop :=
  match match t with PointerTo elem => elem | _ => t end with
  | SliceOf elem | ArrayOf _ elem =>
      exists items,
        s !! PropItems = Some (VMap items) /\ recordsClosed elem items
  | MapOf key elem =>
      if Kind_eqb (KindOf key) String_
      then exists sub,
             s !! PropAdditionalProperties = Some (VMap sub)
             /\ recordsClosed elem sub
      else True
  | StructOf fields =>
      s !! PropType = Some (VString TypeObject)
      /\ s !! PropAdditionalProperties = Some (VBool false)
      /\ exists props,
           s !! PropProperties = Some (VMap props)
           /\ forall name sub, props !! name = Some sub ->
                fold_right
                  (fun f found =>
                     (visibleField f = true
                      /\ propertyName f = name
                      /\ sub = VMap (fieldSchemaOf f)
                      /\ recordsClosed (Type_ f) (fieldSchemaOf f))
                     \/ found)
                  False fields
  | _ => True
  end.

(** The [properties] map a schema carries; empty when the key is absent. *)
Definition propertiesOf (schema : gmap string value) : gmap string value :=
  match schema !! PropProperties with
  | Some (VMap props) => props
  | _ => ∅
  end.

(** The keys the type mapper and the struct builder write. *)
Definition shapeKeys : list string :=
  [PropType; PropItems; PropAdditionalProperties; PropProperties; PropRequired].

(** The six JSON Schema type names of the package. *)
Definition typeNames : list string :=
  [TypeString; TypeInteger; TypeNumber; TypeBoolean; TypeObject; TypeArray].

(** ** Facts about the string functions *)

Lemma Split_cons (s : string) (sep : ascii) :
  Split s sep = hd "" (Split s sep) :: tl (Split s sep).
Proof.
  destruct s as [|c s']; simpl; [reflexivity|].
  destruct (Ascii.eqb c sep); reflexivity.
Qed.

Lemma Split_no_sep (s : string) (sep : ascii) :
  forall p, In p (Split s sep) -> ~ In sep (bytesOf p).
Proof.
  induction s as [|c s' IH]; intros p Hin.
  - simpl in Hin. destruct Hin as [<-|[]]. intros [].
  - simpl in Hin. rewrite (Split_cons s' sep) in IH.
    destruct (Ascii.eqb c sep) eqn:Hc.
    + destruct Hin as [<-|Hin]; [intros []|].
      apply IH. rewrite <- Split_cons in *. exact Hin.
    + destruct Hin as [<-|Hin].
      * simpl. intros [->|Hsep].
        -- rewrite Ascii.eqb_refl in Hc. discriminate.
        -- revert Hsep. apply IH. left. reflexivity.
      * apply IH. right. exact Hin.
Qed.

Lemma Split_single (s : string) (sep : ascii) :
  ~ In sep (bytesOf s) -> Split s sep = [s].
Proof.
  induction s as [|c s' IH]; intros Hno; simpl; [reflexivity|].
  destruct (Ascii.eqb c sep) eqn:Hc.
  - apply Ascii.eqb_eq in Hc. subst. exfalso. apply Hno. left. reflexivity.
  - rewrite IH; [reflexivity|]. intros Hin. apply Hno. right. exact Hin.
Qed.

Lemma TrimLeftSpace_incl (s : string) :
  forall c, In c (bytesOf (TrimLeftSpace s)) -> In c (bytesOf s).
Proof.
  assert (H : forall n s, String.length s <= n ->
              forall c, In c (bytesOf (TrimLeftSpace s)) -> In c (bytesOf s)).
  { induction n as [|n IH]; intros [|c1 r1] Hlen c; simpl in *;
      try lia; try tauto.
    destruct (isSpace1 c1).
    { intros Hin. right. apply IH; [lia | exact Hin]. }
    destruct r1 as [|c2 r2]; [tauto|].
    destruct (isSpace2 c1 c2).
    { intros Hin. right. right. simpl in Hlen. apply IH; [lia | exact Hin]. }
    destruct r2 as [|c3 r3]; [tauto|].
    destruct (isSpace3 c1 c2 c3); [|tauto].
    intros Hin. right. right. right. simpl in Hlen. apply IH; [lia | exact Hin]. }
  apply (H (String.length s)). lia.
Qed.

Lemma trimRev_incl (r : list ascii) :
  forall c, In c (trimRev r) -> In c r.
Proof.
  assert (H : forall n r, List.length r <= n ->
              forall c, In c (trimRev r) -> In c r).
  { induction n as [|n IH]; intros [|c1 r1] Hlen c; simpl in *;
      try lia; try tauto.
    destruct (isSpace1 c1).
    { intros Hin. right. apply IH; [lia | exact Hin]. }
    destruct r1 as [|c2 r2]; [tauto|].
    destruct (isSpace2 c2 c1).
    { intros Hin. right. right. simpl in Hlen. apply IH; [lia | exact Hin]. }
    destruct r2 as [|c3 r3]; [tauto|].
    destruct (isSpace3 c3 c2 c1); [|tauto].
    intros Hin. right. right. right. simpl in Hlen. apply IH; [lia | exact Hin]. }
  apply (H (List.length r)). lia.
Qed.

Lemma TrimSpace_incl (s : string) :
  forall c, In c (bytesOf (TrimSpace s)) -> In c (bytesOf s).
Proof.
  intros c. unfold TrimSpace, TrimRightSpace, bytesOf.
  rewrite list_ascii_of_string_of_list_ascii.
  intros Hin. apply TrimLeftSpace_incl. unfold bytesOf.
  apply in_rev in Hin. apply trimRev_incl in Hin.
  apply in_rev in Hin. exact Hin.
Qed.

Lemma bytesOf_app (a b : string) :
  bytesOf (a ++ b) = (bytesOf a ++ bytesOf b)%list.
Proof.
  induction a as [|c a IH]; simpl; [reflexivity|].
  unfold bytesOf in *. simpl. rewrite IH. reflexivity.
Qed.

Lemma Cut_spec (s : string) (sep : ascii) (before after : string) :
  Cut s sep = Some (before, after) ->
  s = before ++ String sep after /\ ~ In sep (bytesOf before).
Proof.
  revert before after.
  induction s as [|c s' IH]; intros before after; simpl; [discriminate|].
  destruct (Ascii.eqb c sep) eqn:Hc.
  - apply Ascii.eqb_eq in Hc. subst. intros [= <- <-]. split; [reflexivity|].
    intros [].
  - destruct (Cut s' sep) as [[b a]|]; [|discriminate].
    intros [= <- <-]. destruct (IH b a eq_refl) as [-> Hno].
    split; [reflexivity|]. simpl. intros [->|Hin].
    + rewrite Ascii.eqb_refl in Hc. discriminate.
    + exact (Hno Hin).
Qed.

Lemma Cut_app (k v : string) (sep : ascii) :
  ~ In sep (bytesOf k) -> Cut (k ++ String sep v) sep = Some (k, v).
Proof.
  induction k as [|c k IH]; intros Hno; simpl.
  - rewrite Ascii.eqb_refl. reflexivity.
  - destruct (Ascii.eqb c sep) eqn:Hc.
    + apply Ascii.eqb_eq in Hc. subst. exfalso. apply Hno. left. reflexivity.
    + rewrite IH; [reflexivity|]. intros Hin. apply Hno. right. exact Hin.
Qed.

Lemma Contains_byte_Cut (s : string) (sep : ascii) :
  Contains s (String sep "") = true <-> Cut s sep <> None.
Proof.
  induction s as [|c s' IH]; simpl.
  - split; [discriminate | intros H; contradiction H; reflexivity].
  - destruct (ascii_dec sep c) as [->|Hne].
    + rewrite Ascii.eqb_refl.
      destruct s'; simpl; split; intros; try discriminate; reflexivity.
    + destruct (Ascii.eqb c sep) eqn:Hc.
      { apply Ascii.eqb_eq in Hc. congruence. }
      simpl. rewrite IH. destruct (Cut s' sep) as [[b a]|]; split; intros H;
        try discriminate; try (contradiction H; reflexivity); assumption.
Qed.

Lemma SplitN_two (s : string) (sep : ascii) :
  Contains s (String sep "") = true ->
  exists before after,
    SplitN s sep 2 = [before; after]
    /\ s = before ++ String sep after /\ ~ In sep (bytesOf before).
Proof.
  intros H. apply Contains_byte_Cut in H. simpl.
  destruct (Cut s sep) as [[b a]|] eqn:Hcut; [|contradiction H; reflexivity].
  exists b, a. split; [reflexivity|]. apply Cut_spec. exact Hcut.
Qed.

(** ** Facts about the loops of the generator *)

Lemma fold_left_flag {A} (P : A -> bool) (l : list A) (b : bool) :
  fold_left (fun flag x => if P x then true else flag) l b = b || existsb P l.
Proof.
  revert b. induction l as [|x l IH]; intros b; simpl.
  - rewrite orb_false_r. reflexivity.
  - rewrite IH. destruct (P x), b; reflexivity.
Qed.

Lemma parseJSONTag_split (tag : string) :
  tag <> "" -> tag <> "-" ->
  parseJSONTag tag =
    (hd "" (Split tag ","),
     existsb (fun part => String.eqb (TrimSpace part) "omitempty")
             (tl (Split tag ",")),
     false).
Proof.
  intros Hne Hdash. unfold parseJSONTag.
  destruct (String.eqb_spec tag "") as [?|_]; [contradiction|].
  destruct (String.eqb_spec tag "-") as [?|_]; [contradiction|].
  rewrite fold_left_flag. rewrite (Split_cons tag ","). reflexivity.
Qed.

Lemma mergeConstraints_union (constraints fieldSchema : gmap string value) :
  mergeConstraints constraints fieldSchema = constraints ∪ fieldSchema.
Proof.
  unfold mergeConstraints.
  apply (map_fold_weak_ind
           (fun r (m : gmap string value) => r = m ∪ fieldSchema)).
  - rewrite (left_id_L ∅ (∪)). reflexivity.
  - intros i x m r _ ->. apply insert_union_l.
Qed.

Lemma structField_eq (props : gmap string value) (required : list string)
    (f : StructField gotype) :
  structField generateSchema (props, required) f =
    if visibleField f
    then (<[propertyName f := VMap (fieldSchemaOf f)]> props,
          if fieldRequired f
          then (required ++ [propertyName f])%list else required)
    else (props, required).
Proof.
  unfold structField, visibleField, propertyName, fieldSchemaOf, fieldRequired.
  destruct (IsExported f); simpl; [|reflexivity].
  destruct (parseJSONTag (TagGet (Tag f) "json")) as [[jsonName omitempty] skip].
  simpl. destruct skip; reflexivity.
Qed.

Lemma structField_fold (fields : list (StructField gotype)) :
  forall props required,
    fold_left (structField generateSchema) fields (props, required) =
      (propsAfter fields props, (required ++ requiredNames fields)%list).
Proof.
  induction fields as [|f fields IH]; intros props required; cbn [fold_left].
  - unfold requiredNames. simpl. rewrite app_nil_r. reflexivity.
  - rewrite structField_eq. unfold requiredNames, propsAfter in *.
    cbn [fold_left List.filter].
    destruct (visibleField f); cbn [andb].
    + destruct (fieldRequired f); rewrite IH; cbn [List.map].
      * rewrite <- app_assoc. reflexivity.
      * reflexivity.
    + rewrite IH. reflexivity.
Qed.

Lemma generateStructSchema_eq (fields : list (StructField gotype)) :
  generateStructSchema fields =
    structSchema (propsAfter fields ∅, requiredNames fields).
Proof.
  unfold generateStructSchema. rewrite structField_fold. reflexivity.
Qed.

Lemma propsAfter_lookup (fields : list (StructField gotype)) :
  forall props name sub,
    propsAfter fields props !! name = Some sub ->
    props !! name = Some sub
    \/ exists f, In f fields /\ visibleField f = true
                 /\ propertyName f = name /\ sub = VMap (fieldSchemaOf f).
Proof.
  induction fields as [|f fields IH]; intros props name sub; simpl.
  - intros H. left. exact H.
  - intros H. apply IH in H. destruct H as [H|(g & Hin & Hv & Hn & Hs)].
    + destruct (visibleField f) eqn:Hvis; [|left; exact H].
      destruct (decide (propertyName f = name)) as [Heq|Hne].
      * subst name. rewrite lookup_insert_eq in H. injection H as <-.
        right. exists f. repeat split; auto.
      * rewrite lookup_insert_ne in H by exact Hne. left. exact H.
    + right. exists g. repeat split; auto.
Qed.

Lemma structSchema_required (props : gmap string value) (required : list string) :
  structSchema (props, required) !! PropRequired =
    match required with
    | [] => None
    | _ :: _ => Some (VStrings required)
    end.
Proof.
  unfold structSchema. destruct required as [|r required]; simpl.
  - rewrite !lookup_insert_ne by discriminate.
    rewrite lookup_singleton_ne by discriminate. reflexivity.
  - rewrite lookup_insert_eq. reflexivity.
Qed.

Lemma structSchema_closed (props : gmap string value) (required : list string) :
  structSchema (props, required) !! PropType = Some (VString TypeObject)
  /\ structSchema (props, required) !! PropProperties = Some (VMap props)
  /\ structSchema (props, required) !! PropAdditionalProperties
       = Some (VBool false).
Proof.
  unfold structSchema.
  destruct (0 <? List.length required)%nat;
    repeat split;
    repeat first
      [ rewrite lookup_insert_eq; reflexivity
      | rewrite lookup_singleton_eq; reflexivity
      | rewrite lookup_insert_ne by discriminate ].
Qed.

(** ** Facts about the constraint parser *)

Lemma validFormats_spec (value_ : string) :
  default false (validFormats !! value_) = true <-> In value_ formatNames.
Proof.
  split.
  - destruct (validFormats !! value_) as [[]|] eqn:H; try discriminate.
    intros _. apply elem_of_list_to_map_2 in H.
    repeat (apply elem_of_cons in H; destruct H as [[= ->]|H];
            [simpl; tauto|]).
    apply elem_of_nil in H. contradiction.
  - intros H. simpl in H.
    repeat (destruct H as [<-|H]; [reflexivity|]). contradiction.
Qed.

Lemma applyConstraint_cases (constraints : gmap string value)
    (key value_ : string) :
  applyConstraint constraints key value_ = constraints
  \/ exists k x,
       applyConstraint constraints key value_ = <[k := x]> constraints
       /\ storedBy value_ k x.
Proof.
  unfold applyConstraint.
  repeat match goal with
         | |- context [if ?b then _ else _] =>
             match b with
             | default _ _ => destruct b eqn:Hfmt
             | _ => destruct b
             end
         | |- context [match ?o with Some _ => _ | None => _ end] =>
             destruct o eqn:?
         end;
    try (left; reflexivity);
    right; eexists _, _; (split; [reflexivity|]);
    (split; [simpl; tauto|]).
  all: try (right; right; split; [discriminate|]; split; [discriminate|];
            first [left; eexists; split; [reflexivity|assumption]
                  |right; eexists; split; [reflexivity|assumption]]).
  - left. split; reflexivity.
  - right. left. repeat split. apply validFormats_spec. exact Hfmt.
Qed.

Lemma parsePart_cases (constraints : gmap string value) (part : string) :
  parsePart constraints part = constraints
  \/ exists value_ k x,
       (forall c, In c (bytesOf value_) -> In c (bytesOf part))
       /\ parsePart constraints part = <[k := x]> constraints
       /\ storedBy value_ k x.
Proof.
  unfold parsePart.
  destruct (String.eqb (TrimSpace part) ""); [left; reflexivity|].
  destruct (Contains (TrimSpace part) "=") eqn:Heq; [|left; reflexivity].
  destruct (SplitN_two _ _ Heq) as (before & after & -> & Hpart & _).
  cbn [nth].
  destruct (applyConstraint_cases constraints (TrimSpace before)
              (TrimSpace after)) as [H|(k & x & H & Hst)].
  - left. exact H.
  - right. exists (TrimSpace after), k, x. split; [|split; assumption].
    intros c Hc. apply TrimSpace_incl. rewrite Hpart, bytesOf_app.
    apply in_or_app. right. right. apply TrimSpace_incl. exact Hc.
Qed.

Lemma fold_left_invariant {A B} (f : A -> B -> A) (I : A -> Prop) (l : list B) :
  forall a,
    I a -> (forall a x, In x l -> I a -> I (f a x)) -> I (fold_left f l a).
Proof.
  induction l as [|x l IH]; intros a Ha Hstep; simpl; [exact Ha|].
  apply IH.
  - apply Hstep; [left; reflexivity | exact Ha].
  - intros a' x' Hin. apply Hstep. right. exact Hin.
Qed.

(** Every entry of a parsed constraint set was stored by a token whose
    value has no other bytes than some comma-separated part of the tag. *)
Lemma parseValidationTag_entries (tag k : string) (x : value) :
  parseValidationTag tag !! k = Some x ->
  exists part value_,
    In part (Split tag ",")
    /\ (forall c, In c (bytesOf value_) -> In c (bytesOf part))
    /\ storedBy value_ k x.
Proof.
  unfold parseValidationTag.
  destruct (String.eqb tag ""); [rewrite lookup_empty; discriminate|].
  revert k x.
  apply (fold_left_invariant parsePart
           (fun cs : gmap string value => forall k x, cs !! k = Some x ->
              exists part value_,
                In part (Split tag ",")
                /\ (forall c, In c (bytesOf value_) -> In c (bytesOf part))
                /\ storedBy value_ k x)).
  - intros k x. rewrite lookup_empty. discriminate.
  - intros cs part Hin IH k x.
    destruct (parsePart_cases cs part) as [->|(v & k' & x' & Hsub & -> & Hst)];
      [apply IH|].
    destruct (decide (k' = k)) as [->|Hne].
    + rewrite lookup_insert_eq. intros [= <-]. exists part, v. auto.
    + rewrite lookup_insert_ne by exact Hne. apply IH.
Qed.

Lemma parseValidationTag_keys (tag k : string) :
  ~ In k constraintKeys -> parseValidationTag tag !! k = None.
Proof.
  intros Hk. destruct (parseValidationTag tag !! k) as [x|] eqn:H;
    [|reflexivity].
  apply parseValidationTag_entries in H.
  destruct H as (_ & _ & _ & _ & Hin & _). contradiction.
Qed.

Lemma mergeConstraints_lookup (tag k : string) (schema : gmap string value) :
  ~ In k constraintKeys ->
  mergeConstraints (parseValidationTag tag) schema !! k = schema !! k.
Proof.
  intros Hk. rewrite mergeConstraints_union.
  apply lookup_union_r, parseValidationTag_keys, Hk.
Qed.

(** ** The naming directive and the requiredness policy *)

Lemma Kind_eqb_eq (a b : Kind) : Kind_eqb a b = true <-> a = b.
Proof. destruct a, b; simpl; split; intros H; congruence. Qed.

Lemma requiredOf_generateStructSchema (fields : list (StructField gotype)) :
  requiredOf (generateStructSchema fields) = requiredNames fields.
Proof.
  unfold requiredOf. rewrite generateStructSchema_eq, structSchema_required.
  destruct (requiredNames fields); reflexivity.
Qed.

Lemma isRequiredField_true (field : StructField gotype) (omitempty : bool)
    (validationTag : string) :
  isRequiredField field omitempty validationTag = true <->
  omitempty = false
  /\ (Contains validationTag "required" = true
      \/ (Contains validationTag "omitempty" = false
          /\ KindOf (Type_ field) <> Pointer)).
Proof.
  unfold isRequiredField.
  destruct omitempty; [split; [discriminate | intros [? _]; discriminate]|].
  destruct (Contains validationTag "required"); [tauto|].
  destruct (Contains validationTag "omitempty"); simpl.
  - split; [discriminate|]. intros [_ [?|[? _]]]; discriminate.
  - destruct (Kind_eqb (KindOf (Type_ field)) Pointer) eqn:Hk; simpl.
    + apply Kind_eqb_eq in Hk. split; [discriminate|].
      intros [_ [?|[_ ?]]]; [discriminate | contradiction].
    + split; [|reflexivity]. intros _. split; [reflexivity|]. right.
      split; [reflexivity|]. intros Hp. apply Kind_eqb_eq in Hp. congruence.
Qed.

(** C1.  The requiredness policy.  [isRequiredField] answers "required"
    exactly when the omitempty flag of the naming directive is off and either
    the validation tag contains the substring "required", or it does not
    contain the substring "omitempty" and the field's type is not of pointer
    kind.  A name is in the [required] list of a generated struct schema
    exactly when it is the emitted name of an exported, non-skipped field
    for which that policy answers "required".  The field
    [Age int `json:"age,omitempty" validate:"required,minimum=0"`] is not
    required. *)
Theorem required_policy_precedence :
  (forall field omitempty validationTag,
      isRequiredField field omitempty validationTag = true <->
      omitempty = false
      /\ (Contains validationTag "required" = true
          \/ (Contains validationTag "omitempty" = false
              /\ KindOf (Type_ field) <> Pointer)))
  /\ (forall fields name,
        In name (requiredOf (generateStructSchema fields)) <->
        exists f jsonName omitempty,
          In f fields
          /\ IsExported f = true
          /\ parseJSONTag (TagGet (Tag f) "json") = (jsonName, omitempty, false)
          /\ name = (if String.eqb jsonName "" then Name f else jsonName)
          /\ omitempty = false
          /\ (Contains (TagGet (Tag f) "validate") "required" = true
              \/ (Contains (TagGet (Tag f) "validate") "omitempty" = false
                  /\ KindOf (Type_ f) <> Pointer)))
  /\ (let age := mkStructField "Age" "" (BasicType BInt)
                   [("json", "age,omitempty"); ("validate", "required,minimum=0")] in
      parseJSONTag "age,omitempty" = ("age", true, false)
      /\ isRequiredField age true "required,minimum=0" = false
      /\ generateStructSchema [age] !! PropRequired = None).
Proof.
  split; [exact isRequiredField_true|]. split.
  - intros fields name. rewrite requiredOf_generateStructSchema.
    unfold requiredNames. rewrite in_map_iff. split.
    + intros (f & Hname & Hin). apply filter_In in Hin. destruct Hin as [Hin Hf].
      apply andb_prop in Hf. destruct Hf as [Hvis Hreq].
      unfold visibleField, fieldRequired, propertyName in *.
      destruct (parseJSONTag (TagGet (Tag f) "json"))
        as [[jsonName omitempty] skip] eqn:Hparse.
      simpl in *. apply andb_prop in Hvis. destruct Hvis as [Hexp Hskip].
      destruct skip; [discriminate|].
      apply isRequiredField_true in Hreq. destruct Hreq as [Hom Hpol].
      exists f, jsonName, omitempty. repeat split; auto.
    + intros (f & jsonName & omitempty & Hin & Hexp & Hparse & Hname & Hom & Hpol).
      exists f. unfold propertyName. rewrite Hparse. simpl.
      split; [symmetry; exact Hname|].
      apply filter_In. split; [exact Hin|].
      unfold visibleField, fieldRequired. rewrite Hparse, Hexp. simpl.
      apply isRequiredField_true. split; assumption.
  - cbv zeta. split; [reflexivity|]. split; [reflexivity|].
    rewrite generateStructSchema_eq, structSchema_required. reflexivity.
Qed.

(** C3 (as the code has it).  [parseJSONTag] returns the empty name and both
    flags off for the empty tag, and the skip flag for the tag "-".  For any
    other tag, split on commas, the name is the first segment exactly as
    written (white space around it is kept), the omitempty flag is set
    exactly when a later segment equals "omitempty" once surrounding white
    space is trimmed, every other segment is ignored, and the skip flag is
    off.  A field whose naming tag is "-" leaves the loop state of the struct
    builder untouched, so it appears in neither [properties] nor
    [required]. *)
Theorem parseJSONTag_directive :
  parseJSONTag "" = ("", false, false)
  /\ parseJSONTag "-" = ("", false, true)
  /\ (forall tag, tag <> "" -> tag <> "-" ->
        exists first rest,
          Split tag "," = first :: rest
          /\ parseJSONTag tag =
               (first,
                existsb (fun part => String.eqb (TrimSpace part) "omitempty") rest,
                false))
  /\ (forall gen st f,
        TagGet (Tag f) "json" = "-" -> structField gen st f = st).
Proof.
  split; [reflexivity|]. split; [reflexivity|]. split.
  - intros tag Hne Hdash.
    exists (hd "" (Split tag ",")), (tl (Split tag ",")).
    split; [apply Split_cons | apply parseJSONTag_split; assumption].
  - intros gen [props required] f Htag. unfold structField. rewrite Htag.
    destruct (IsExported f); reflexivity.
Qed.

(** C3, counterexample: the name is not trimmed.  For the tag
    [" id ,omitempty"] the name returned is [" id "], not ["id"]. *)
Lemma parseJSONTag_name_not_trimmed :
  parseJSONTag " id ,omitempty" = (" id ", true, false)
  /\ fst (fst (parseJSONTag " id ,omitempty"))
       <> TrimSpace (hd "" (Split " id ,omitempty" ",")).
Proof. split; [reflexivity|]. vm_compute. discriminate. Qed.

(** C5.  The [required] key of a generated struct schema is present exactly
    when some exported, non-skipped field is required; when present it holds
    the emitted names of those fields in declaration order, and so is never
    an empty list.  Merging a field's constraints into a nested struct
    schema leaves its [required] entry as it is. *)
Theorem required_key_present_iff (fields : list (StructField gotype)) :
  (is_Some (generateStructSchema fields !! PropRequired) <->
     exists f, In f fields /\ visibleField f = true /\ fieldRequired f = true)
  /\ (forall x,
        generateStructSchema fields !! PropRequired = Some x ->
        x = VStrings (List.map propertyName
                        (List.filter (fun f => visibleField f && fieldRequired f)
                                     fields))
        /\ x <> VStrings [])
  /\ (forall tag,
        mergeConstraints (parseValidationTag tag) (generateStructSchema fields)
          !! PropRequired
        = generateStructSchema fields !! PropRequired).
Proof.
  split; [|split];
    [rewrite generateStructSchema_eq, structSchema_required;
     fold (requiredNames fields) ..|].
  - split.
    + intros [x Hx]. destruct (requiredNames fields) as [|n l] eqn:Hreq;
        [discriminate|].
      assert (Hin : In n (requiredNames fields)) by (rewrite Hreq; left; reflexivity).
      unfold requiredNames in Hin. apply in_map_iff in Hin.
      destruct Hin as (f & _ & Hf). apply filter_In in Hf.
      destruct Hf as [Hin Hb]. apply andb_prop in Hb.
      exists f. tauto.
    + intros (f & Hin & Hvis & Hreq).
      assert (H : In (propertyName f) (requiredNames fields)).
      { unfold requiredNames. apply in_map. apply filter_In.
        rewrite Hvis, Hreq. auto. }
      destruct (requiredNames fields); [contradiction|]. eexists. reflexivity.
  - intros x Hx. destruct (requiredNames fields) as [|n l]; [discriminate|].
    injection Hx as <-. split; [reflexivity | discriminate].
  - intros tag. apply mergeConstraints_lookup. vm_compute.
    intuition discriminate.
Qed.

(** ** Closed object schemas for struct types *)

Lemma gotype_nested_ind (P : gotype -> Prop) :
  (forall b, P (BasicType b)) ->
  (forall elem, P elem -> P (PointerTo elem)) ->
  (forall elem, P elem -> P (SliceOf elem)) ->
  (forall len elem, P elem -> P (ArrayOf len elem)) ->
  (forall key elem, P key -> P elem -> P (MapOf key elem)) ->
  (forall elem, P elem -> P (ChanOf elem)) ->
  P FuncType ->
  P InterfaceType ->
  (forall fields, Forall (fun f => P (Type_ f)) fields -> P (StructOf fields)) ->
  forall t, P t.
Proof.
  intros Hbasic Hptr Hslice Harray Hmap Hchan Hfunc Hiface Hstruct.
  fix IH 1. intros [b|elem|elem|len elem|key elem|elem| | |fields].
  - apply Hbasic.
  - apply Hptr, IH.
  - apply Hslice, IH.
  - apply Harray, IH.
  - apply Hmap; apply IH.
  - apply Hchan, IH.
  - apply Hfunc.
  - apply Hiface.
  - apply Hstruct. induction fields as [|f fields IHfields].
    + constructor.
    + constructor; [apply IH | exact IHfields].
Qed.

Lemma fold_right_or {A} (Q : A -> Prop) (l : list A) :
  (exists x, In x l /\ Q x) -> fold_right (fun x found => Q x \/ found) False l.
Proof.
  induction l as [|y l IH]; intros (x & Hin & Hq); simpl in *; [contradiction|].
  destruct Hin as [->|Hin]; [left; exact Hq | right; apply IH; eauto].
Qed.

Lemma sparesShape_empty : sparesShape ∅.
Proof. repeat split; apply lookup_empty. Qed.

Lemma sparesShape_parseValidationTag (tag : string) :
  sparesShape (parseValidationTag tag).
Proof.
  repeat split; apply parseValidationTag_keys; vm_compute;
    intuition discriminate.
Qed.

Lemma fieldSchemaOf_union (f : StructField gotype) :
  exists constraints,
    sparesShape constraints
    /\ fieldSchemaOf f = constraints ∪ generateSchema (Type_ f).
Proof.
  unfold fieldSchemaOf.
  destruct (negb (String.eqb (TagGet (Tag f) "validate") "")).
  - eexists. split; [apply sparesShape_parseValidationTag|].
    apply mergeConstraints_union.
  - exists ∅. split; [apply sparesShape_empty|].
    rewrite (left_id_L ∅ (∪)). reflexivity.
Qed.

Lemma recordsClosed_merged (t : gotype) :
  forall constraints,
    sparesShape constraints ->
    recordsClosed t (constraints ∪ generateSchema t).
Proof.
  induction t as [b|elem IH|elem IH|len elem IH|key elem _ IH|elem _| |
                  |fields IH] using gotype_nested_ind;
    intros cs (Htype & Hprops & Haddl & Hitems).
  - destruct b; exact I.
  - destruct elem as [b|e|e|n e|k e|e| | |fs];
      try exact I; try (destruct b; exact I);
      apply (IH cs); repeat split; assumption.
  - simpl. exists (generateSchema elem). split.
    + rewrite lookup_union_r by exact Hitems.
      rewrite lookup_insert_ne by discriminate.
      apply lookup_singleton_eq.
    + rewrite <- (left_id_L ∅ (∪) (generateSchema elem)).
      apply IH, sparesShape_empty.
  - simpl. exists (generateSchema elem). split.
    + rewrite lookup_union_r by exact Hitems.
      rewrite lookup_insert_ne by discriminate.
      apply lookup_singleton_eq.
    + rewrite <- (left_id_L ∅ (∪) (generateSchema elem)).
      apply IH, sparesShape_empty.
  - simpl. destruct (Kind_eqb (KindOf key) String_); simpl; [|exact I].
    exists (generateSchema elem). split.
    + rewrite lookup_union_r by exact Haddl.
      rewrite lookup_insert_ne by discriminate.
      apply lookup_singleton_eq.
    + rewrite <- (left_id_L ∅ (∪) (generateSchema elem)).
      apply IH, sparesShape_empty.
  - exact I.
  - exact I.
  - exact I.
  - change (generateSchema (StructOf fields)) with (generateStructSchema fields).
    rewrite generateStructSchema_eq.
    destruct (structSchema_closed (propsAfter fields ∅) (requiredNames fields))
      as (Ht & Hp & Ha).
    cbn [recordsClosed]. split; [|split].
    + rewrite lookup_union_r by exact Htype. exact Ht.
    + rewrite lookup_union_r by exact Haddl. exact Ha.
    + exists (propsAfter fields ∅). split.
      * rewrite lookup_union_r by exact Hprops. exact Hp.
      * intros name sub Hsub. apply propsAfter_lookup in Hsub.
        destruct Hsub as [Hsub|(f & Hin & Hvis & Hname & ->)];
          [rewrite lookup_empty in Hsub; discriminate|].
        apply (fold_right_or
                 (fun f0 => visibleField f0 = true
                            /\ propertyName f0 = name
                            /\ VMap (fieldSchemaOf f) = VMap (fieldSchemaOf f0)
                            /\ recordsClosed (Type_ f0) (fieldSchemaOf f0))).
        exists f. split; [exact Hin|]. repeat split; try assumption.
        destruct (fieldSchemaOf_union f) as (cs' & Hcs' & ->).
        rewrite Forall_forall in IH. apply IH; [|exact Hcs'].
        apply list_elem_of_In. exact Hin.
Qed.

(** C4.  Every schema generated from a struct type has type "object", a
    [properties] map and [additionalProperties] equal to [false]; and in the
    schema generated for any type this holds at every position that holds a
    schema derived from a struct type (array items, map values and
    properties, at any depth), also after the constraints of the enclosing
    field have been merged into it. *)
Theorem struct_schema_closed :
  (forall fields,
      generateStructSchema fields !! PropType = Some (VString "object")
      /\ (exists props,
            generateStructSchema fields !! PropProperties = Some (VMap props))
      /\ generateStructSchema fields !! PropAdditionalProperties
           = Some (VBool false))
  /\ (forall t, recordsClosed t (generateSchema t))
  /\ (forall f, recordsClosed (Type_ f) (fieldSchemaOf f)).
Proof.
  split; [|split].
  - intros fields. rewrite generateStructSchema_eq.
    destruct (structSchema_closed (propsAfter fields ∅) (requiredNames fields))
      as (Ht & Hp & Ha).
    split; [exact Ht|]. split; [eexists; exact Hp | exact Ha].
  - intros t. rewrite <- (left_id_L ∅ (∪) (generateSchema t)).
    apply recordsClosed_merged, sparesShape_empty.
  - intros f. destruct (fieldSchemaOf_union f) as (cs & Hcs & ->).
    apply recordsClosed_merged, Hcs.
Qed.

(** C6.  A map type whose key is of string kind maps to an object schema
    whose [additionalProperties] is the schema of the value type; a map type
    with any other key kind maps to the object schema with the [type] key
    alone.  [map[string]int] yields
    [{type: "object", additionalProperties: {type: "integer"}}]. *)
Theorem map_shape (key elem : gotype) :
  (KindOf key = String_ ->
     generateSchema (MapOf key elem) =
       {[ PropType := VString "object";
          PropAdditionalProperties := VMap (generateSchema elem) ]})
  /\ (KindOf key <> String_ ->
        generateSchema (MapOf key elem) = {[ PropType := VString "object" ]}
        /\ generateSchema (MapOf key elem) !! PropAdditionalProperties = None)
  /\ generateSchema (MapOf (BasicType BString) (BasicType BInt)) =
       {[ PropType := VString "object";
          PropAdditionalProperties := VMap {[ PropType := VString "integer" ]} ]}.
Proof.
  split; [|split].
  - intros Hk. simpl. rewrite Hk. reflexivity.
  - intros Hk. simpl. destruct (Kind_eqb (KindOf key) String_) eqn:He.
    + apply Kind_eqb_eq in He. contradiction.
    + simpl. split; [reflexivity|]. apply lookup_singleton_ne. discriminate.
  - reflexivity.
Qed.


(** C10.  The result of [Generate] depends on the dynamic type of its
    argument only, never on the value.  In particular a nil pointer whose
    type is pointer-to-struct is accepted and yields the schema that a value
    of the struct type itself yields. *)
Theorem Generate_typed_nil :
  (forall t d1 d2, Generate (iface t d1) = Generate (iface t d2))
  /\ (forall fields d,
        Generate (iface (PointerTo (StructOf fields)) NilValue)
          = (Some (generateStructSchema fields), None)
        /\ Generate (iface (PointerTo (StructOf fields)) NilValue)
           = Generate (iface (StructOf fields) d))
  /\ Generate untypedNil = (None, Some "cannot generate schema from nil value").
Proof.
  split; [|split].
  - reflexivity.
  - intros fields d. split; reflexivity.
  - reflexivity.
Qed.

(** ** The constraint parser *)

Lemma parsePart_key_value (constraints : gmap string value)
    (part key value_ : string) :
  TrimSpace part = key ++ String "=" value_ ->
  ~ In "="%char (bytesOf key) ->
  parsePart constraints part =
    applyConstraint constraints (TrimSpace key) (TrimSpace value_).
Proof.
  intros Hpart Hkey. unfold parsePart. rewrite Hpart.
  destruct (String.eqb_spec (key ++ String "=" value_) "") as [Hempty|_].
  { destruct key; discriminate. }
  assert (Hcut : Cut (key ++ String "=" value_) "=" = Some (key, value_))
    by (apply Cut_app; exact Hkey).
  assert (Hc : Contains (key ++ String "=" value_) "=" = true).
  { apply Contains_byte_Cut. rewrite Hcut. discriminate. }
  rewrite Hc. cbn [SplitN]. rewrite Hcut. reflexivity.
Qed.

(** C7.  A token that contains "=" is split at its first "=" only: with the
    trimmed token written [key ++ "=" ++ value], where [key] has no "=", the
    constraint is dispatched on the trimmed [key] with the trimmed [value],
    whatever further "=" the value holds.  A tag made of one such token whose
    key is "pattern" stores the whole trimmed value as the pattern, and the
    tag "pattern=^a=b$" stores the pattern "^a=b$". *)
Theorem token_split_at_first_equals :
  (forall constraints part key value_,
      TrimSpace part = key ++ String "=" value_ ->
      ~ In "="%char (bytesOf key) ->
      parsePart constraints part =
        applyConstraint constraints (TrimSpace key) (TrimSpace value_))
  /\ (forall key value_,
        TrimSpace (key ++ String "=" value_) = key ++ String "=" value_ ->
        ~ In "="%char (bytesOf key) ->
        ~ In ","%char (bytesOf (key ++ String "=" value_)) ->
        TrimSpace key = "pattern" ->
        parseValidationTag (key ++ String "=" value_) =
          {[ PropPattern := VString (TrimSpace value_) ]})
  /\ parseValidationTag "pattern=^a=b$" = {[ PropPattern := VString "^a=b$" ]}.
Proof.
  split; [exact parsePart_key_value|]. split.
  - intros key value_ Htrim Hkey Hcomma Hpattern. unfold parseValidationTag.
    destruct (String.eqb_spec (key ++ String "=" value_) "") as [Hempty|_].
    { destruct key; discriminate. }
    rewrite Split_single by exact Hcomma. cbn [fold_left].
    rewrite (parsePart_key_value ∅ _ key value_ Htrim Hkey), Hpattern.
    reflexivity.
  - reflexivity.
Qed.

(** C8.  [parseValidationTag] is a total function into constraint sets: it
    has no error result.  A format constraint is stored when its value is one
    of the nine known formats and dropped otherwise, so a format found in a
    parsed set is always one of the nine; a numeric constraint whose value
    does not parse is dropped; a token with an unknown key is dropped; and a
    token without "=" is dropped. *)
Theorem constraints_dropped_silently :
  (forall tag, exists constraints, parseValidationTag tag = constraints)
  /\ (forall constraints value_,
        In value_ ["date-time"; "time"; "date"; "duration"; "email";
                   "hostname"; "ipv4"; "ipv6"; "uuid"] ->
        applyConstraint constraints "format" value_ =
          <[PropFormat := VString value_]> constraints)
  /\ (forall constraints value_,
        ~ In value_ ["date-time"; "time"; "date"; "duration"; "email";
                     "hostname"; "ipv4"; "ipv6"; "uuid"] ->
        applyConstraint constraints "format" value_ = constraints)
  /\ (forall tag x,
        parseValidationTag tag !! PropFormat = Some x ->
        exists value_,
          x = VString value_
          /\ In value_ ["date-time"; "time"; "date"; "duration"; "email";
                        "hostname"; "ipv4"; "ipv6"; "uuid"])
  /\ (forall constraints key value_,
        In key ["minimum"; "min"; "maximum"; "max"; "exclusiveMinimum";
                "exclusiveMaximum"; "multipleOf"] ->
        ParseFloat value_ = None ->
        applyConstraint constraints key value_ = constraints)
  /\ (forall constraints key value_,
        In key ["minItems"; "maxItems"] ->
        Atoi value_ = None ->
        applyConstraint constraints key value_ = constraints)
  /\ (forall constraints key value_,
        ~ In key ["minimum"; "min"; "maximum"; "max"; "exclusiveMinimum";
                  "exclusiveMaximum"; "multipleOf"; "pattern"; "format";
                  "minItems"; "maxItems"] ->
        applyConstraint constraints key value_ = constraints)
  /\ (forall constraints part,
        Contains (TrimSpace part) "=" = false ->
        parsePart constraints part = constraints).
Proof.
  repeat apply conj.
  - intros tag. eexists. reflexivity.
  - intros cs v Hv. apply validFormats_spec in Hv.
    unfold applyConstraint. simpl. rewrite Hv. reflexivity.
  - intros cs v Hv. unfold applyConstraint. simpl.
    destruct (default false (validFormats !! v)) eqn:H; [|reflexivity].
    apply validFormats_spec in H. contradiction.
  - intros tag x Hx. apply parseValidationTag_entries in Hx.
    destruct Hx as (_ & v & _ & _ & _ & [[H _]|[(_ & -> & Hin)|(_ & H & _)]]).
    + discriminate.
    + exists v. split; [reflexivity | exact Hin].
    + contradiction H. reflexivity.
  - intros cs key v Hkey Hparse. simpl in Hkey.
    repeat (destruct Hkey as [<-|Hkey];
            [unfold applyConstraint; simpl; rewrite Hparse; reflexivity|]).
    contradiction.
  - intros cs key v Hkey Hparse. simpl in Hkey.
    repeat (destruct Hkey as [<-|Hkey];
            [unfold applyConstraint; simpl; rewrite Hparse; reflexivity|]).
    contradiction.
  - intros cs key v Hkey. unfold applyConstraint.
    repeat match goal with
           | |- context [String.eqb key ?k] =>
               destruct (String.eqb_spec key k) as [->|_];
               [exfalso; apply Hkey; simpl; tauto|]
           end.
    reflexivity.
  - intros cs part H. unfold parsePart. rewrite H.
    destruct (String.eqb (TrimSpace part) ""); reflexivity.
Qed.

(** C9.  The tag is split on commas before any token is looked at, so no
    string stored in a parsed constraint set contains a comma: the tag
    "pattern=a,b" stores the pattern "a", and "b" is a token of its own,
    which is ignored. *)
Theorem stored_strings_have_no_comma :
  (forall tag k s,
      parseValidationTag tag !! k = Some (VString s) ->
      ~ In ","%char (bytesOf s))
  /\ Split "pattern=a,b" "," = ["pattern=a"; "b"]
  /\ parsePart {[ PropPattern := VString "a" ]} "b"
       = {[ PropPattern := VString "a" ]}
  /\ parseValidationTag "pattern=a,b" = {[ PropPattern := VString "a" ]}.
Proof.
  split; [|repeat split; reflexivity].
  intros tag k s Hs. apply parseValidationTag_entries in Hs.
  destruct Hs as (part & v & Hpart & Hsub & _ & Hst).
  assert (Hv : s = v).
  { destruct Hst as [[_ [= ->]]|[(_ & [= ->] & _)|(_ & _ & [(n & H & _)|(n & H & _)])]];
      try reflexivity; discriminate. }
  subst v. intros Hin. apply (Split_no_sep tag "," part Hpart).
  apply Hsub. exact Hin.
Qed.

(** ** The type mapper *)

Lemma generateSchema_unfold (t : gotype) :
  generateSchema t =
    match getTypeSchema (deref t) with
    | Some schema => schema
    | None =>
        match deref t with
        | SliceOf elem | ArrayOf _ elem =>
            {[ PropType := VString TypeArray;
               PropItems := VMap (generateSchema elem) ]}
        | MapOf key elem =>
            if negb (Kind_eqb (KindOf key) String_)
            then {[ PropType := VString TypeObject ]}
            else {[ PropType := VString TypeObject;
                    PropAdditionalProperties := VMap (generateSchema elem) ]}
        | StructOf fields => generateStructSchema fields
        | _ => {[ PropType := VString TypeObject ]}
        end
    end.
Proof. destruct t; reflexivity. Qed.

Lemma generateSchema_deref (t : gotype) :
  KindOf t <> Pointer -> generateSchema (PointerTo t) = generateSchema t.
Proof.
  intros Hk. rewrite (generateSchema_unfold (PointerTo t)), (generateSchema_unfold t).
  destruct t; try reflexivity. contradiction Hk. reflexivity.
Qed.

Lemma generateSchema_shape_keys (t : gotype) (k : string) :
  ~ In k shapeKeys -> generateSchema t !! k = None.
Proof.
  intros Hk.
  assert (Ht : k <> PropType) by (intros ->; apply Hk; simpl; tauto).
  assert (Hi : k <> PropItems) by (intros ->; apply Hk; simpl; tauto).
  assert (Ha : k <> PropAdditionalProperties) by (intros ->; apply Hk; simpl; tauto).
  assert (Hp : k <> PropProperties) by (intros ->; apply Hk; simpl; tauto).
  assert (Hr : k <> PropRequired) by (intros ->; apply Hk; simpl; tauto).
  rewrite generateSchema_unfold.
  destruct (deref t) as [b|e|e|n e|key e|e| | |fields]; simpl.
  - destruct b; simpl; apply lookup_singleton_ne; congruence.
  - apply lookup_singleton_ne; congruence.
  - rewrite lookup_insert_ne by congruence. apply lookup_singleton_ne; congruence.
  - rewrite lookup_insert_ne by congruence. apply lookup_singleton_ne; congruence.
  - destruct (Kind_eqb (KindOf key) String_); simpl.
    + rewrite lookup_insert_ne by congruence. apply lookup_singleton_ne; congruence.
    + apply lookup_singleton_ne; congruence.
  - apply lookup_singleton_ne; congruence.
  - apply lookup_singleton_ne; congruence.
  - apply lookup_singleton_ne; congruence.
  - rewrite generateStructSchema_eq. unfold structSchema.
    destruct (0 <? List.length (requiredNames fields))%nat;
      rewrite ?lookup_insert_ne by congruence;
      apply lookup_singleton_ne; congruence.
Qed.

Lemma generateSchema_type (t : gotype) :
  exists name, In name typeNames
               /\ generateSchema t !! PropType = Some (VString name).
Proof.
  rewrite generateSchema_unfold.
  destruct (deref t) as [b|e|e|n e|key e|e| | |fields]; simpl.
  - destruct b; simpl; eexists;
      (split; [|apply lookup_singleton_eq]); simpl; tauto.
  - exists TypeObject. split; [simpl; tauto | apply lookup_singleton_eq].
  - exists TypeArray. split; [simpl; tauto | apply lookup_insert_eq].
  - exists TypeArray. split; [simpl; tauto | apply lookup_insert_eq].
  - exists TypeObject. split; [simpl; tauto|].
    destruct (Kind_eqb (KindOf key) String_); simpl;
      [apply lookup_insert_eq | apply lookup_singleton_eq].
  - exists TypeObject. split; [simpl; tauto | apply lookup_singleton_eq].
  - exists TypeObject. split; [simpl; tauto | apply lookup_singleton_eq].
  - exists TypeObject. split; [simpl; tauto | apply lookup_singleton_eq].
  - exists TypeObject. split; [simpl; tauto|].
    rewrite generateStructSchema_eq. apply structSchema_closed.
Qed.

Lemma fieldSchemaOf_lookup (f : StructField gotype) (k : string) :
  fieldSchemaOf f !! k =
    match parseValidationTag (TagGet (Tag f) "validate") !! k with
    | Some x => Some x
    | None => generateSchema (Type_ f) !! k
    end.
Proof.
  unfold fieldSchemaOf.
  destruct (String.eqb_spec (TagGet (Tag f) "validate") "") as [->|_]; simpl.
  - unfold parseValidationTag. simpl. rewrite lookup_empty. reflexivity.
  - rewrite mergeConstraints_union, lookup_union.
    destruct (parseValidationTag (TagGet (Tag f) "validate") !! k),
             (generateSchema (Type_ f) !! k); reflexivity.
Qed.

(** X1.  The schema of a type is decided by the kind of the type, one level
    of pointer looked through: string kind gives exactly [{type: "string"}],
    the five signed and the five sized unsigned integer kinds
    [{type: "integer"}], the float kinds [{type: "number"}], bool
    [{type: "boolean"}]; and uintptr, the complex kinds, chan, func, interface,
    unsafe.Pointer and a pointer behind a pointer give exactly
    [{type: "object"}], with no other key. *)
Theorem shape_by_kind (t : gotype) :
  (KindOf (deref t) = String_ ->
     generateSchema t = {[ PropType := VString "string" ]})
  /\ (In (KindOf (deref t))
         [Int; Int8; Int16; Int32; Int64; Uint; Uint8; Uint16; Uint32; Uint64] ->
      generateSchema t = {[ PropType := VString "integer" ]})
  /\ (In (KindOf (deref t)) [Float32; Float64] ->
      generateSchema t = {[ PropType := VString "number" ]})
  /\ (KindOf (deref t) = Bool ->
      generateSchema t = {[ PropType := VString "boolean" ]})
  /\ (In (KindOf (deref t))
         [Uintptr; Complex64; Complex128; Chan; Func; Interface;
          UnsafePointer; Pointer] ->
      generateSchema t = {[ PropType := VString "object" ]}).
Proof.
  rewrite generateSchema_unfold.
  destruct (deref t) as [b|e|e|n e|key e|e| | |fields];
    [destruct b|..]; simpl;
    repeat split; intros H;
    try reflexivity; try discriminate H;
    repeat (destruct H as [H|H]; [discriminate H|]); contradiction H.
Qed.

(** X2.  Exactly one level of pointer is looked through.  A pointer to a
    type that is not itself a pointer has the schema of that type, and as an
    argument of [Generate] it gives the result a value of that type gives.  A
    pointer to a pointer has the schema [{type: "object"}] whatever it
    points to in the end, and [Generate] rejects it, naming the kind
    [ptr]. *)
Theorem pointer_looked_through_once :
  (forall t, KindOf t <> Pointer ->
     generateSchema (PointerTo t) = generateSchema t)
  /\ (forall t d d', KindOf t <> Pointer ->
        Generate (iface (PointerTo t) d) = Generate (iface t d'))
  /\ (forall t,
        generateSchema (PointerTo (PointerTo t)) = {[ PropType := VString "object" ]})
  /\ (forall t d,
        Generate (iface (PointerTo (PointerTo t)) d)
          = (None, Some "expected struct type, got ptr")).
Proof.
  split; [exact generateSchema_deref|]. split; [|split; reflexivity].
  intros t d d' Hk. unfold Generate.
  destruct t; try reflexivity. contradiction Hk. reflexivity.
Qed.

(** X3.  Every generated schema has a [type] entry holding one of the six
    type names, and the schema stored for a field keeps the [type] of the
    field's shape: merging constraints never replaces it. *)
Theorem schema_type_always_present :
  (forall t, exists name,
      In name ["string"; "integer"; "number"; "boolean"; "object"; "array"]
      /\ generateSchema t !! PropType = Some (VString name))
  /\ (forall f,
        fieldSchemaOf f !! PropType = generateSchema (Type_ f) !! PropType).
Proof.
  split; [exact generateSchema_type|].
  intros f. rewrite fieldSchemaOf_lookup, parseValidationTag_keys;
    [reflexivity|]. vm_compute. intuition discriminate.
Qed.

(** X4.  The keys of a parsed constraint set and the keys of a generated
    shape are disjoint, so merging the constraints of a field into its shape
    is a union that loses nothing: the stored schema answers a key with the
    constraint when there is one and with the shape's entry otherwise. *)
Theorem constraints_merge_disjoint :
  (forall t tag k,
      is_Some (parseValidationTag tag !! k) -> generateSchema t !! k = None)
  /\ (forall f k x,
        parseValidationTag (TagGet (Tag f) "validate") !! k = Some x ->
        fieldSchemaOf f !! k = Some x)
  /\ (forall f k,
        parseValidationTag (TagGet (Tag f) "validate") !! k = None ->
        fieldSchemaOf f !! k = generateSchema (Type_ f) !! k).
Proof.
  split; [|split].
  - intros t tag k [x Hx]. apply generateSchema_shape_keys.
    intros Hin.
    rewrite parseValidationTag_keys in Hx; [discriminate|].
    revert Hin. vm_compute. intuition (subst; discriminate).
  - intros f k x Hx. rewrite fieldSchemaOf_lookup, Hx. reflexivity.
  - intros f k Hx. rewrite fieldSchemaOf_lookup, Hx. reflexivity.
Qed.

(** ** The struct builder *)

Lemma propertiesOf_generateStructSchema (fields : list (StructField gotype)) :
  propertiesOf (generateStructSchema fields) = propsAfter fields ∅.
Proof.
  unfold propertiesOf. rewrite generateStructSchema_eq.
  destruct (structSchema_closed (propsAfter fields ∅) (requiredNames fields))
    as (_ & -> & _).
  reflexivity.
Qed.

Lemma propsAfter_app (l1 l2 : list (StructField gotype))
    (props : gmap string value) :
  propsAfter (l1 ++ l2) props = propsAfter l2 (propsAfter l1 props).
Proof. unfold propsAfter. apply fold_left_app. Qed.

Lemma propsAfter_union (fields : list (StructField gotype)) :
  forall props, propsAfter fields props = propsAfter fields ∅ ∪ props.
Proof.
  induction fields as [|f fields IH]; intros props; simpl.
  - rewrite (left_id_L ∅ (∪)). reflexivity.
  - destruct (visibleField f); [|apply IH].
    rewrite (IH (<[_ := _]> props)), (IH (<[_ := _]> ∅)).
    rewrite <- (assoc_L (∪)). f_equal.
    rewrite insert_empty. apply insert_union_singleton_l.
Qed.

Lemma propsAfter_keeps (fields : list (StructField gotype)) (name : string) :
  forall props,
    is_Some (props !! name) -> is_Some (propsAfter fields props !! name).
Proof.
  induction fields as [|f fields IH]; intros props Hs; simpl; [exact Hs|].
  apply IH. destruct (visibleField f); [|exact Hs].
  destruct (decide (propertyName f = name)) as [->|Hne].
  - rewrite lookup_insert_eq. eexists. reflexivity.
  - rewrite lookup_insert_ne by exact Hne. exact Hs.
Qed.

Lemma propsAfter_visible (fields : list (StructField gotype)) :
  forall props f,
    In f fields -> visibleField f = true ->
    is_Some (propsAfter fields props !! propertyName f).
Proof.
  induction fields as [|g fields IH]; intros props f Hin Hvis; simpl;
    [contradiction|].
  destruct Hin as [->|Hin]; [|apply IH; assumption].
  rewrite Hvis. apply propsAfter_keeps. rewrite lookup_insert_eq.
  eexists. reflexivity.
Qed.

Lemma propsAfter_other_names (fields : list (StructField gotype)) (name : string) :
  (forall g, In g fields -> visibleField g = true -> propertyName g <> name) ->
  forall props, propsAfter fields props !! name = props !! name.
Proof.
  induction fields as [|g fields IH]; intros Hother props; simpl; [reflexivity|].
  rewrite IH by (intros g' Hin; apply Hother; right; exact Hin).
  destruct (visibleField g) eqn:Hvis; [|reflexivity].
  apply lookup_insert_ne. apply Hother; [left; reflexivity | exact Hvis].
Qed.

Lemma requiredNames_app (l1 l2 : list (StructField gotype)) :
  requiredNames (l1 ++ l2) = (requiredNames l1 ++ requiredNames l2)%list.
Proof.
  unfold requiredNames. rewrite List.filter_app, List.map_app. reflexivity.
Qed.

Lemma visibleField_false (f : StructField gotype) :
  IsExported f = false \/ TagGet (Tag f) "json" = "-" ->
  visibleField f = false.
Proof.
  unfold visibleField. intros [->| ->]; [reflexivity|].
  simpl. apply andb_false_r.
Qed.

(** X5.  A field that is not exported, or whose naming tag is "-", leaves no
    trace: the schema of the struct is the schema of the struct without that
    field, whatever the field's type and validation tag. *)
Theorem hidden_field_leaves_no_trace (l1 l2 : list (StructField gotype))
    (f : StructField gotype) :
  IsExported f = false \/ TagGet (Tag f) "json" = "-" ->
  generateStructSchema (l1 ++ f :: l2) = generateStructSchema (l1 ++ l2).
Proof.
  intros Hf. apply visibleField_false in Hf.
  rewrite !generateStructSchema_eq, !propsAfter_app, !requiredNames_app.
  unfold requiredNames at 2. simpl. rewrite Hf. reflexivity.
Qed.

(** X6.  The keys of the [properties] map of a struct schema are exactly the
    emitted names of the exported, non-skipped fields, and every entry is the
    schema stored for one of the fields of that name. *)
Theorem properties_are_the_visible_fields (fields : list (StructField gotype)) :
  (forall name,
      is_Some (propertiesOf (generateStructSchema fields) !! name) <->
      exists f, In f fields /\ visibleField f = true /\ propertyName f = name)
  /\ (forall name x,
        propertiesOf (generateStructSchema fields) !! name = Some x ->
        exists f, In f fields /\ visibleField f = true
                  /\ propertyName f = name /\ x = VMap (fieldSchemaOf f)).
Proof.
  rewrite propertiesOf_generateStructSchema. split.
  - intros name. split.
    + intros [x Hx]. apply propsAfter_lookup in Hx.
      destruct Hx as [Hx|(f & Hin & Hvis & Hname & _)];
        [rewrite lookup_empty in Hx; discriminate|].
      exists f. auto.
    + intros (f & Hin & Hvis & <-). apply propsAfter_visible; assumption.
  - intros name x Hx. apply propsAfter_lookup in Hx.
    destruct Hx as [Hx|H]; [rewrite lookup_empty in Hx; discriminate | exact H].
Qed.

(** X7.  When several visible fields share an emitted name, the entry of
    [properties] is the schema of the last of them in declaration order; and
    when the emitted names of the visible fields are pairwise distinct, every
    visible field has its own schema under its own name. *)
Theorem last_field_of_a_name_wins :
  (forall l1 f l2,
      visibleField f = true ->
      (forall g, In g l2 -> visibleField g = true ->
                 propertyName g <> propertyName f) ->
      propertiesOf (generateStructSchema (l1 ++ f :: l2)) !! propertyName f
        = Some (VMap (fieldSchemaOf f)))
  /\ (forall fields f,
        NoDup (List.map propertyName (List.filter visibleField fields)) ->
        In f fields -> visibleField f = true ->
        propertiesOf (generateStructSchema fields) !! propertyName f
          = Some (VMap (fieldSchemaOf f))).
Proof.
  assert (Hlast : forall l1 f l2,
             visibleField f = true ->
             (forall g, In g l2 -> visibleField g = true ->
                        propertyName g <> propertyName f) ->
             propertiesOf (generateStructSchema (l1 ++ f :: l2)) !! propertyName f
             = Some (VMap (fieldSchemaOf f))).
  { intros l1 f l2 Hvis Hother.
    rewrite propertiesOf_generateStructSchema, propsAfter_app. simpl.
    rewrite Hvis. rewrite propsAfter_other_names by exact Hother.
    apply lookup_insert_eq. }
  split; [exact Hlast|].
  intros fields f Hnodup Hin Hvis.
  destruct (in_split _ _ Hin) as (l1 & l2 & ->).
  apply Hlast; [exact Hvis|].
  intros g Hg Hgvis Heq.
  rewrite List.filter_app, List.map_app in Hnodup. simpl in Hnodup.
  rewrite Hvis in Hnodup. simpl in Hnodup.
  apply NoDup_app in Hnodup. destruct Hnodup as (_ & _ & Hnodup).
  apply NoDup_cons in Hnodup. destruct Hnodup as [Hnotin _].
  apply Hnotin. rewrite <- Heq. apply list_elem_of_In, in_map, filter_In.
  split; assumption.
Qed.

(** X8.  Every name in the [required] list of a struct schema is a key of
    its [properties] map. *)
Theorem required_names_are_properties (fields : list (StructField gotype))
    (name : string) :
  In name (requiredOf (generateStructSchema fields)) ->
  is_Some (propertiesOf (generateStructSchema fields) !! name).
Proof.
  rewrite requiredOf_generateStructSchema, propertiesOf_generateStructSchema.
  unfold requiredNames. rewrite in_map_iff.
  intros (f & <- & Hf). apply filter_In in Hf. destruct Hf as [Hin Hb].
  apply andb_prop in Hb. apply propsAfter_visible; tauto.
Qed.

(** X9.  The schema of a struct is put together field by field: for a field
    list in two parts, the [required] list is the list of the first part
    followed by the list of the second, and the [properties] map is the map
    of the second part completed by the entries of the first part under the
    names the second part does not use. *)
Theorem struct_schema_of_appended_fields (l1 l2 : list (StructField gotype)) :
  requiredOf (generateStructSchema (l1 ++ l2))
    = (requiredOf (generateStructSchema l1)
       ++ requiredOf (generateStructSchema l2))%list
  /\ propertiesOf (generateStructSchema (l1 ++ l2))
     = propertiesOf (generateStructSchema l2)
       ∪ propertiesOf (generateStructSchema l1).
Proof.
  rewrite !requiredOf_generateStructSchema, !propertiesOf_generateStructSchema.
  split; [apply requiredNames_app|].
  rewrite propsAfter_app. apply propsAfter_union.
Qed.

(** X10.  A struct with no exported, non-skipped field (the empty struct
    among them) has the schema
    [{type: "object", properties: {}, additionalProperties: false}], with no
    [required] key. *)
Theorem struct_without_visible_fields (fields : list (StructField gotype)) :
  (forall f, In f fields -> visibleField f = false) ->
  generateStructSchema fields =
    {[ PropType := VString "object";
       PropProperties := VMap ∅;
       PropAdditionalProperties := VBool false ]}.
Proof.
  intros Hhidden. rewrite generateStructSchema_eq.
  assert (Hp : forall props, propsAfter fields props = props).
  { induction fields as [|f fields IH]; intros props; simpl; [reflexivity|].
    rewrite (Hhidden f) by (left; reflexivity).
    apply IH. intros g Hg. apply Hhidden. right. exact Hg. }
  assert (Hr : requiredNames fields = []).
  { unfold requiredNames.
    induction fields as [|f fields IH]; simpl; [reflexivity|].
    rewrite (Hhidden f) by (left; reflexivity). simpl.
    apply IH; [intros g Hg; apply Hhidden; right; exact Hg|].
    intros props. specialize (Hp props). simpl in Hp.
    rewrite (Hhidden f) in Hp by (left; reflexivity). exact Hp. }
  rewrite Hp, Hr. reflexivity.
Qed.

(** ** More on the naming directive *)

Lemma Split_app (a b : string) (sep : ascii) :
  Split (a ++ String sep b) sep = (Split a sep ++ Split b sep)%list.
Proof.
  induction a as [|c a IH]; simpl.
  - rewrite Ascii.eqb_refl. reflexivity.
  - rewrite IH. destruct (Ascii.eqb c sep); [reflexivity|].
    rewrite (Split_cons a sep). reflexivity.
Qed.

Lemma has_comma_not_dash (name rest : string) :
  name ++ String "," rest <> "" /\ name ++ String "," rest <> "-".
Proof.
  split; [destruct name; discriminate|].
  destruct name as [|c [|c' name]]; simpl; discriminate.
Qed.

Lemma parseJSONTag_segments (name rest : string) :
  ~ In ","%char (bytesOf name) ->
  parseJSONTag (name ++ String "," rest) =
    (name,
     existsb (fun part => String.eqb (TrimSpace part) "omitempty")
             (Split rest ","),
     false).
Proof.
  intros Hname. destruct (has_comma_not_dash name rest) as [Hne Hdash].
  rewrite parseJSONTag_split by assumption.
  rewrite Split_app, Split_single by exact Hname. reflexivity.
Qed.

Lemma parseJSONTag_plain (name : string) :
  ~ In ","%char (bytesOf name) -> name <> "-" ->
  parseJSONTag name = (name, false, false).
Proof.
  intros Hname Hdash. destruct (String.eqb_spec name "") as [->|Hne];
    [reflexivity|].
  rewrite parseJSONTag_split by assumption.
  rewrite Split_single by exact Hname. reflexivity.
Qed.

(** X11.  The naming directive read segment by segment.  A tag without a
    comma, other than "-", is the name, with both flags off.  A tag
    [name,rest], where [name] has no comma, has the name [name] (the empty
    name and the name "-" included: ["-,"] names the property "-" and skips
    nothing), and its omitempty flag is set exactly when some comma-separated
    segment of [rest] is "omitempty" up to surrounding white space, wherever
    it stands; [name,omitempty] sets it. *)
Theorem parseJSONTag_by_segments :
  (forall name,
      ~ In ","%char (bytesOf name) -> name <> "-" ->
      parseJSONTag name = (name, false, false))
  /\ (forall name rest,
        ~ In ","%char (bytesOf name) ->
        parseJSONTag (name ++ String "," rest) =
          (name,
           existsb (fun part => String.eqb (TrimSpace part) "omitempty")
                   (Split rest ","),
           false))
  /\ (forall name,
        ~ In ","%char (bytesOf name) ->
        parseJSONTag (name ++ ",omitempty") = (name, true, false)).
Proof.
  split; [exact parseJSONTag_plain|]. split; [exact parseJSONTag_segments|].
  intros name Hname.
  apply (parseJSONTag_segments name "omitempty" Hname).
Qed.

(** X12.  What [parseJSONTag] never does: it sets the skip flag for no tag
    but "-", it returns no name that contains a comma, and it sets the
    omitempty flag for no tag without a comma. *)
Theorem parseJSONTag_flags (tag : string) :
  (snd (parseJSONTag tag) = true <-> tag = "-")
  /\ ~ In ","%char (bytesOf (fst (fst (parseJSONTag tag))))
  /\ (~ In ","%char (bytesOf tag) -> snd (fst (parseJSONTag tag)) = false).
Proof.
  destruct (String.eqb_spec tag "") as [->|Hne].
  { repeat split; try discriminate; intros []. }
  destruct (String.eqb_spec tag "-") as [->|Hdash].
  { repeat split; try reflexivity. intros []. }
  rewrite parseJSONTag_split by assumption. simpl. split; [|split].
  - split; [discriminate | intros ->; contradiction Hdash; reflexivity].
  - apply (Split_no_sep tag ","). rewrite (Split_cons tag ",") at 2.
    left. reflexivity.
  - intros Htag. rewrite Split_single by exact Htag. reflexivity.
Qed.

(** X13.  The name a field is emitted under: the field's own name when the
    naming tag is absent or empty or begins with a comma, and the first
    segment of the tag when that segment is not empty.  A field with a
    non-empty name is never emitted under the empty name. *)
Theorem property_name_fallback (f : StructField gotype) :
  (TagGet (Tag f) "json" = "" -> propertyName f = Name f)
  /\ (forall rest,
        TagGet (Tag f) "json" = String "," rest -> propertyName f = Name f)
  /\ (forall name rest,
        ~ In ","%char (bytesOf name) -> name <> "" ->
        TagGet (Tag f) "json" = name ++ String "," rest ->
        propertyName f = name)
  /\ (forall name,
        ~ In ","%char (bytesOf name) -> name <> "" -> name <> "-" ->
        TagGet (Tag f) "json" = name -> propertyName f = name)
  /\ (Name f <> "" -> propertyName f <> "").
Proof.
  unfold propertyName. repeat split.
  - intros ->. reflexivity.
  - intros rest ->.
    assert (H : ~ In ","%char (bytesOf "")) by (intros []).
    pose proof (parseJSONTag_segments "" rest H) as Hseg.
    change ("" ++ String "," rest) with (String "," rest) in Hseg.
    rewrite Hseg. reflexivity.
  - intros name rest Hname Hne ->. rewrite parseJSONTag_segments by exact Hname.
    simpl. destruct (String.eqb_spec name ""); [contradiction | reflexivity].
  - intros name Hname Hne Hdash ->. rewrite parseJSONTag_plain by assumption.
    simpl. destruct (String.eqb_spec name ""); [contradiction | reflexivity].
  - intros Hname.
    destruct (String.eqb_spec (fst (fst (parseJSONTag (TagGet (Tag f) "json")))) "");
      assumption.
Qed.

(** ** More on the constraint parser and the requiredness test *)

Lemma parsePart_empty (constraints : gmap string value) :
  parsePart constraints "" = constraints.
Proof. reflexivity. Qed.

Lemma parseValidationTag_fold (tag : string) :
  parseValidationTag tag = fold_left parsePart (Split tag ",") ∅.
Proof.
  unfold parseValidationTag.
  destruct (String.eqb_spec tag "") as [->|_]; reflexivity.
Qed.

Lemma parseValidationTag_app (a b : string) :
  parseValidationTag (a ++ String "," b) =
    fold_left parsePart (Split b ",") (parseValidationTag a).
Proof.
  rewrite !parseValidationTag_fold, Split_app. apply fold_left_app.
Qed.

(** X14.  A validation tag is read token by token from the left.  The set
    parsed from [a,b] is the set parsed from [a] with the tokens of [b]
    applied to it in order.  Appending one [key=value] token applies that
    constraint to the set parsed so far, so a repeated key keeps the value of
    its last token: after [a,pattern=v] the pattern is the trimmed [v]
    whatever [a] holds. *)
Theorem validation_tag_left_to_right :
  (forall a b,
      parseValidationTag (a ++ String "," b) =
        fold_left parsePart (Split b ",") (parseValidationTag a))
  /\ (forall a part key value_,
        ~ In ","%char (bytesOf part) ->
        TrimSpace part = key ++ String "=" value_ ->
        ~ In "="%char (bytesOf key) ->
        parseValidationTag (a ++ String "," part) =
          applyConstraint (parseValidationTag a) (TrimSpace key) (TrimSpace value_))
  /\ (forall a part key value_,
        ~ In ","%char (bytesOf part) ->
        TrimSpace part = key ++ String "=" value_ ->
        ~ In "="%char (bytesOf key) ->
        TrimSpace key = "pattern" ->
        parseValidationTag (a ++ String "," part) !! PropPattern =
          Some (VString (TrimSpace value_))).
Proof.
  assert (Happ : forall a part key value_,
             ~ In ","%char (bytesOf part) ->
             TrimSpace part = key ++ String "=" value_ ->
             ~ In "="%char (bytesOf key) ->
             parseValidationTag (a ++ String "," part) =
               applyConstraint (parseValidationTag a)
                               (TrimSpace key) (TrimSpace value_)).
  { intros a part key value_ Hpart Htrim Hkey.
    rewrite parseValidationTag_app, Split_single by exact Hpart.
    cbn [fold_left]. apply parsePart_key_value; assumption. }
  split; [exact parseValidationTag_app|]. split; [exact Happ|].
  intros a part key value_ Hpart Htrim Hkey Hpattern.
  rewrite (Happ a part key value_) by assumption. rewrite Hpattern.
  apply lookup_insert_eq.
Qed.

(** X15.  Tokens without "=" store nothing: a validation tag none of whose
    comma-separated parts contains "=" (the tags "required" and
    "required,omitempty" among them) parses to the empty constraint set. *)
Theorem bare_tokens_store_nothing (tag : string) :
  (forall part, In part (Split tag ",") ->
                Contains (TrimSpace part) "=" = false) ->
  parseValidationTag tag = ∅.
Proof.
  intros Hbare. rewrite parseValidationTag_fold.
  apply (fold_left_invariant parsePart (fun cs : gmap string value => cs = ∅));
    [reflexivity|].
  intros cs part Hin ->. unfold parsePart. rewrite (Hbare part Hin).
  destruct (String.eqb (TrimSpace part) ""); reflexivity.
Qed.

Lemma Atoi_range (s : string) (n : Z) :
  Atoi s = Some n -> (- 2 ^ 63 <= n <= 2 ^ 63 - 1)%Z.
Proof.
  unfold Atoi.
  destruct (match s with
            | EmptyString => (false, s)
            | String c s' =>
                if Ascii.eqb c "-" then (true, s')
                else if Ascii.eqb c "+" then (false, s') else (false, s)
            end) as [neg body].
  destruct body as [|c body]; [discriminate|].
  destruct (digits 0 (String c body)) as [m|]; [|discriminate].
  destruct ((- 2 ^ 63 <=? (if neg then - m else m))%Z
            && ((if neg then - m else m) <=? 2 ^ 63 - 1)%Z) eqn:Hr;
    [|discriminate].
  intros [= <-]. apply andb_prop in Hr. destruct Hr as [H1 H2].
  apply Z.leb_le in H1, H2. split; assumption.
Qed.

Lemma parsePart_apply (constraints : gmap string value) (part : string) :
  parsePart constraints part = constraints
  \/ exists key value_,
       parsePart constraints part = applyConstraint constraints key value_.
Proof.
  unfold parsePart.
  destruct (String.eqb (TrimSpace part) ""); [left; reflexivity|].
  destruct (Contains (TrimSpace part) "="); [|left; reflexivity].
  right. eexists _, _. reflexivity.
Qed.

(** X16.  Every entry of a parsed constraint set has the Go type of its key:
    [minimum], [maximum], [exclusiveMinimum], [exclusiveMaximum] and
    [multipleOf] hold a float that [ParseFloat] returned, [minItems] and
    [maxItems] hold an [int] within the 64-bit range, [pattern] holds a
    string and [format] one of the nine format names. *)
Theorem constraint_values_typed (tag k : string) (x : value) :
  parseValidationTag tag !! k = Some x ->
  (In k ["minimum"; "maximum"; "exclusiveMinimum"; "exclusiveMaximum";
         "multipleOf"]
   /\ exists num s, x = VFloat num /\ ParseFloat s = Some num)
  \/ (In k ["minItems"; "maxItems"]
      /\ exists n, x = VInt n /\ (- 2 ^ 63 <= n <= 2 ^ 63 - 1)%Z)
  \/ (k = "pattern" /\ exists s, x = VString s)
  \/ (k = "format"
      /\ exists s, x = VString s
                   /\ In s ["date-time"; "time"; "date"; "duration"; "email";
                            "hostname"; "ipv4"; "ipv6"; "uuid"]).
Proof.
  rewrite parseValidationTag_fold. revert k x.
  apply (fold_left_invariant parsePart
           (fun cs : gmap string value => forall k x, cs !! k = Some x -> _)).
  - intros k x. rewrite lookup_empty. discriminate.
  - intros cs part _ IH k x.
    destruct (parsePart_apply cs part) as [->|(key & v & ->)]; [apply IH|].
    unfold applyConstraint.
    repeat match goal with
           | |- context [if ?b then _ else _] =>
               match b with
               | default _ _ => destruct b eqn:Hfmt
               | _ => destruct b
               end
           | |- context [match ?o with Some _ => _ | None => _ end] =>
               destruct o eqn:?
           end;
      try apply IH;
      (match goal with
       | |- <[?k' := _]> _ !! _ = _ -> _ =>
           destruct (decide (k' = k)) as [<-|Hne];
           [rewrite lookup_insert_eq; intros [= <-]
           |rewrite lookup_insert_ne by exact Hne; apply IH]
       end).
    all: try (left; split; [simpl; tauto|]; eexists _, _; split;
              [reflexivity | eassumption]).
    all: try (right; left; split; [simpl; tauto|]; eexists; split;
              [reflexivity | eapply Atoi_range; eassumption]).
    + right. right. left. split; [reflexivity|]. eexists. reflexivity.
    + right. right. right. split; [reflexivity|]. eexists.
      split; [reflexivity|]. apply validFormats_spec. exact Hfmt.
Qed.

Lemma prefix_app (sub b : string) : String.prefix sub (sub ++ b) = true.
Proof.
  induction sub as [|c sub IH]; simpl; [destruct b; reflexivity|].
  destruct (ascii_dec c c); [exact IH | contradiction].
Qed.

Lemma prefix_split (sub s : string) :
  String.prefix sub s = true -> exists b, s = sub ++ b.
Proof.
  revert s. induction sub as [|c sub IH]; intros s H.
  - exists s. reflexivity.
  - destruct s as [|c' s]; [discriminate|]. simpl in H.
    destruct (ascii_dec c c') as [<-|]; [|discriminate].
    destruct (IH s H) as [b ->]. exists b. reflexivity.
Qed.

Lemma Contains_app (a sub b : string) : Contains (a ++ sub ++ b) sub = true.
Proof.
  induction a as [|c a IH].
  - change ("" ++ sub ++ b) with (sub ++ b).
    pose proof (prefix_app sub b) as H.
    destruct (sub ++ b); cbn [Contains]; rewrite H; reflexivity.
  - change (String c a ++ sub ++ b) with (String c (a ++ sub ++ b)).
    cbn [Contains]. rewrite IH. apply orb_true_r.
Qed.

(** X17.  [strings.Contains] is substring containment: it answers true
    exactly when the string is some prefix, the substring and some suffix in
    a row. *)
Theorem Contains_substring (s sub : string) :
  Contains s sub = true <-> exists a b, s = a ++ sub ++ b.
Proof.
  split.
  - induction s as [|c s IH]; cbn [Contains].
    + rewrite orb_false_r. intros H. apply prefix_split in H.
      destruct H as [b ->]. exists "", b. reflexivity.
    + intros H. apply orb_prop in H. destruct H as [H|H].
      * apply prefix_split in H. destruct H as [b ->]. exists "", b. reflexivity.
      * destruct (IH H) as (a & b & ->). exists (String c a), b. reflexivity.
  - intros (a & b & ->). apply Contains_app.
Qed.

(** X18.  The requiredness test looks for the bytes "required" anywhere in
    the validation tag: unless the naming tag says omitempty, a field is
    required as soon as its validation tag holds "required" at any position,
    inside a longer word or a pattern value too, whatever the field's type
    and whether or not the tag also holds "omitempty". *)
Theorem required_anywhere_in_tag (field : StructField gotype)
    (before after : string) :
  isRequiredField field false (before ++ "required" ++ after) = true.
Proof.
  unfold isRequiredField. rewrite Contains_app. reflexivity.
Qed.

(** X19.  [Generate] returns either a schema and no error, or an error with
    a non-empty message and no schema, never both and never neither.  A
    returned schema is the one the type mapper gives for the argument's
    type, so a struct has the same schema as the root and as the type of a
    field without a validation tag. *)
Theorem Generate_schema_or_error (v : any) :
  ((exists schema, Generate v = (Some schema, None))
   \/ (exists msg, Generate v = (None, Some msg) /\ msg <> ""))
  /\ (forall t d schema,
        v = iface t d -> Generate v = (Some schema, None) ->
        schema = generateSchema t
        /\ forall f, Type_ f = t -> TagGet (Tag f) "validate" = "" ->
                     fieldSchemaOf f = schema).
Proof.
  split.
  - destruct v as [|t d]; [right; eexists; split; [reflexivity | discriminate]|].
    unfold Generate.
    destruct (Kind_eqb (KindOf (match t with PointerTo e => e | _ => t end)) Struct);
      simpl; [left; eexists; reflexivity|].
    right. eexists. split; [reflexivity | discriminate].
  - intros t d schema -> H. unfold Generate in H. fold (deref t) in H.
    destruct (Kind_eqb (KindOf (deref t)) Struct) eqn:Hk; simpl in H;
      [|discriminate].
    injection H as <-.
    assert (Hgen : generateSchema (deref t) = generateSchema t).
    { apply Kind_eqb_eq in Hk. destruct t; try reflexivity.
      symmetry. apply (generateSchema_deref t). simpl in Hk. congruence. }
    split; [exact Hgen|].
    intros f <- Htag. unfold fieldSchemaOf. rewrite Htag. simpl.
    symmetry. exact Hgen.
Qed.

(** X20.  The comma-separated parts of a tag, joined by commas again, are
    the tag: splitting drops nothing but the separators, and no part holds a
    comma. *)
Theorem Split_concat (s : string) :
  String.concat "," (Split s ",") = s
  /\ forall part, In part (Split s ",") -> ~ In ","%char (bytesOf part).
Proof.
  split; [|apply Split_no_sep].
  induction s as [|c s IH]; [reflexivity|].
  cbn [Split]. destruct (Split s ",") as [|h t] eqn:E.
  { rewrite Split_cons in E. discriminate. }
  destruct (Ascii.eqb c ","%char) eqn:Hc.
  - apply Ascii.eqb_eq in Hc. subst c. cbn [String.concat] in *.
    rewrite IH. reflexivity.
  - cbn [hd tl String.concat] in *. destruct t; rewrite <- IH; reflexivity.
Qed.

(** ** Trimmed form *)

Lemma TrimLeftSpace_length (s : string) :
  String.length (TrimLeftSpace s) <= String.length s.
Proof.
  assert (H : forall n s, String.length s <= n ->
              String.length (TrimLeftSpace s) <= String.length s).
  { induction n as [|n IH]; intros [|c1 r1] Hlen; simpl in *; try lia.
    destruct (isSpace1 c1); [specialize (IH r1); lia|].
    destruct r1 as [|c2 r2]; [simpl; lia|].
    destruct (isSpace2 c1 c2); [specialize (IH r2); simpl in *; lia|].
    destruct r2 as [|c3 r3]; [simpl; lia|].
    destruct (isSpace3 c1 c2 c3); [specialize (IH r3); simpl in *; lia|].
    simpl. lia. }
  apply (H (String.length s)). lia.
Qed.

Lemma append_String (c : ascii) (p q : string) :
  String c p ++ q = String c (p ++ q).
Proof. reflexivity. Qed.

Lemma append_empty (q : string) : "" ++ q = q.
Proof. reflexivity. Qed.

Lemma TrimLeftSpace_prefix (p q : string) :
  TrimLeftSpace (p ++ q) = p ++ q -> TrimLeftSpace p = p.
Proof.
  intros H.
  assert (Hlen : forall r, String.length r < String.length (p ++ q) ->
                           TrimLeftSpace r <> p ++ q).
  { intros r Hr E. pose proof (TrimLeftSpace_length r) as Hl.
    rewrite E in Hl. lia. }
  destruct p as [|c1 [|c2 [|c3 r3]]]; try reflexivity;
    rewrite ?append_String, ?append_empty in *; simpl in *.
  - destruct (isSpace1 c1); [|reflexivity].
    exfalso. apply (Hlen q); [simpl; lia | exact H].
  - destruct (isSpace1 c1).
    { exfalso. apply (Hlen (String c2 q)); [simpl; lia | exact H]. }
    destruct (isSpace2 c1 c2); [|reflexivity].
    exfalso. apply (Hlen q); [simpl; lia | exact H].
  - destruct (isSpace1 c1).
    { exfalso. apply (Hlen (String c2 (String c3 (r3 ++ q)))); [simpl; lia | exact H]. }
    destruct (isSpace2 c1 c2).
    { exfalso. apply (Hlen (String c3 (r3 ++ q))); [simpl; lia | exact H]. }
    destruct (isSpace3 c1 c2 c3); [|reflexivity].
    exfalso. apply (Hlen (r3 ++ q)); [simpl; lia | exact H].
Qed.

Lemma TrimLeftSpace_idempotent (s : string) :
  TrimLeftSpace (TrimLeftSpace s) = TrimLeftSpace s.
Proof.
  assert (H : forall n s, String.length s <= n ->
              TrimLeftSpace (TrimLeftSpace s) = TrimLeftSpace s).
  { induction n as [|n IH]; intros [|c1 r1] Hlen; simpl in *; try lia;
      try reflexivity.
    destruct (isSpace1 c1) eqn:H1; [apply IH; lia|].
    destruct r1 as [|c2 r2]; [simpl; rewrite H1; reflexivity|].
    destruct (isSpace2 c1 c2) eqn:H2; [apply IH; simpl in *; lia|].
    destruct r2 as [|c3 r3]; [simpl; rewrite H1, H2; reflexivity|].
    destruct (isSpace3 c1 c2 c3) eqn:H3; [apply IH; simpl in *; lia|].
    simpl. rewrite H1, H2, H3. reflexivity. }
  apply (H (String.length s)). lia.
Qed.

Lemma trimRev_idempotent (r : list ascii) : trimRev (trimRev r) = trimRev r.
Proof.
  assert (H : forall n r, List.length r <= n -> trimRev (trimRev r) = trimRev r).
  { induction n as [|n IH]; intros [|c1 r1] Hlen; simpl in *; try lia;
      try reflexivity.
    destruct (isSpace1 c1) eqn:H1; [apply IH; lia|].
    destruct r1 as [|c2 r2]; [simpl; rewrite H1; reflexivity|].
    destruct (isSpace2 c2 c1) eqn:H2; [apply IH; simpl in *; lia|].
    destruct r2 as [|c3 r3]; [simpl; rewrite H1, H2; reflexivity|].
    destruct (isSpace3 c3 c2 c1) eqn:H3; [apply IH; simpl in *; lia|].
    simpl. rewrite H1, H2, H3. reflexivity. }
  apply (H (List.length r)). lia.
Qed.

Lemma trimRev_suffix (r : list ascii) : exists p, r = (p ++ trimRev r)%list.
Proof.
  assert (H : forall n r, List.length r <= n -> exists p, r = (p ++ trimRev r)%list).
  { induction n as [|n IH]; intros [|c1 r1] Hlen; simpl in *; try lia;
      try (exists []; reflexivity).
    destruct (isSpace1 c1).
    { destruct (IH r1) as [p Hp]; [lia|]. exists (c1 :: p). simpl. congruence. }
    destruct r1 as [|c2 r2]; [exists []; reflexivity|].
    destruct (isSpace2 c2 c1).
    { destruct (IH r2) as [p Hp]; [simpl in *; lia|].
      exists (c1 :: c2 :: p). simpl. congruence. }
    destruct r2 as [|c3 r3]; [exists []; reflexivity|].
    destruct (isSpace3 c3 c2 c1); [|exists []; reflexivity].
    destruct (IH r3) as [p Hp]; [simpl in *; lia|].
    exists (c1 :: c2 :: c3 :: p). simpl. congruence. }
  apply (H (List.length r)). lia.
Qed.

Lemma string_of_list_ascii_app (a b : list ascii) :
  string_of_list_ascii (a ++ b) = string_of_list_ascii a ++ string_of_list_ascii b.
Proof. induction a as [|c a IH]; simpl; [reflexivity | rewrite IH; reflexivity]. Qed.

Lemma TrimRightSpace_prefix (x : string) : exists q, x = TrimRightSpace x ++ q.
Proof.
  unfold TrimRightSpace.
  destruct (trimRev_suffix (rev (list_ascii_of_string x))) as [p Hp].
  exists (string_of_list_ascii (rev p)).
  rewrite <- string_of_list_ascii_app, <- rev_app_distr, <- Hp, rev_involutive.
  symmetry. apply string_of_list_ascii_of_string.
Qed.

Lemma TrimRightSpace_idempotent (x : string) :
  TrimRightSpace (TrimRightSpace x) = TrimRightSpace x.
Proof.
  unfold TrimRightSpace.
  rewrite list_ascii_of_string_of_list_ascii, rev_involutive, trimRev_idempotent.
  reflexivity.
Qed.

Lemma TrimSpace_idempotent (s : string) : TrimSpace (TrimSpace s) = TrimSpace s.
Proof.
  unfold TrimSpace.
  assert (H : TrimLeftSpace (TrimRightSpace (TrimLeftSpace s))
              = TrimRightSpace (TrimLeftSpace s)).
  { destruct (TrimRightSpace_prefix (TrimLeftSpace s)) as [q Hq].
    apply (TrimLeftSpace_prefix _ q). rewrite <- Hq.
    apply TrimLeftSpace_idempotent. }
  rewrite H. apply TrimRightSpace_idempotent.
Qed.

Lemma parsePart_trimmed (constraints : gmap string value) (part : string) :
  parsePart constraints part = constraints
  \/ exists key raw,
       parsePart constraints part =
         applyConstraint constraints key (TrimSpace raw).
Proof.
  unfold parsePart.
  destruct (String.eqb (TrimSpace part) ""); [left; reflexivity|].
  destruct (Contains (TrimSpace part) "="); [|left; reflexivity].
  right. eexists _, _. reflexivity.
Qed.

Lemma applyConstraint_strings (constraints : gmap string value)
    (key value_ k s : string) :
  applyConstraint constraints key value_ !! k = Some (VString s) ->
  constraints !! k = Some (VString s) \/ s = value_.
Proof.
  unfold applyConstraint.
  repeat match goal with
         | |- context [if ?b then _ else _] => destruct b
         | |- context [match ?o with Some _ => _ | None => _ end] =>
             destruct o
         end;
    try (left; assumption);
    (match goal with
     | |- <[?k' := _]> _ !! _ = _ -> _ =>
         destruct (decide (k' = k)) as [<-|Hne];
         [rewrite lookup_insert_eq; intros [= <-]
         |rewrite lookup_insert_ne by exact Hne; intros H; left; exact H]
     end);
    try discriminate; right; reflexivity.
Qed.

(** X21.  Trimming is idempotent, and every string stored in a parsed
    constraint set is in trimmed form: a pattern or format never begins or
    ends with white space. *)
Theorem stored_strings_are_trimmed :
  (forall s, TrimSpace (TrimSpace s) = TrimSpace s)
  /\ (forall tag k s,
        parseValidationTag tag !! k = Some (VString s) -> TrimSpace s = s).
Proof.
  split; [exact TrimSpace_idempotent|].
  intros tag. rewrite parseValidationTag_fold.
  apply (fold_left_invariant parsePart
           (fun cs : gmap string value =>
              forall k s, cs !! k = Some (VString s) -> TrimSpace s = s)).
  - intros k s. rewrite lookup_empty. discriminate.
  - intros cs part _ IH k s.
    destruct (parsePart_trimmed cs part) as [->|(key & raw & ->)]; [apply IH|].
    intros H. apply applyConstraint_strings in H.
    destruct H as [H| ->]; [exact (IH k s H) | apply TrimSpace_idempotent].
Qed.

(** ** Defaults, arrays and key aliases *)

Lemma untagged_field (f : StructField gotype) :
  Tag f = [] ->
  visibleField f = IsExported f
  /\ propertyName f = Name f
  /\ fieldRequired f = negb (Kind_eqb (KindOf (Type_ f)) Pointer).
Proof.
  intros Htag. unfold visibleField, propertyName, fieldRequired, isRequiredField.
  rewrite Htag. simpl. rewrite andb_true_r. repeat split.
  destruct (Kind_eqb (KindOf (Type_ f)) Pointer); reflexivity.
Qed.

(** X22.  The default policy, for a struct none of whose fields carries a
    tag: the properties are the exported fields under their own names, and
    [required] lists, in declaration order, the exported fields whose type
    is not of pointer kind. *)
Theorem untagged_struct_defaults (fields : list (StructField gotype)) :
  (forall f, In f fields -> Tag f = []) ->
  requiredOf (generateStructSchema fields)
    = List.map Name
        (List.filter
           (fun f => IsExported f && negb (Kind_eqb (KindOf (Type_ f)) Pointer))
           fields)
  /\ (forall name,
        is_Some (propertiesOf (generateStructSchema fields) !! name) <->
        exists f, In f fields /\ IsExported f = true /\ Name f = name).
Proof.
  intros Htags. split.
  - rewrite requiredOf_generateStructSchema. unfold requiredNames.
    induction fields as [|f fields IH]; [reflexivity|].
    destruct (untagged_field f (Htags f (or_introl eq_refl))) as (Hv & Hn & Hr).
    cbn [List.filter]. rewrite Hv, Hr.
    destruct (IsExported f && negb (Kind_eqb (KindOf (Type_ f)) Pointer));
      cbn [List.map]; rewrite IH by (intros g Hg; apply Htags; right; exact Hg);
      [rewrite Hn|]; reflexivity.
  - intros name. rewrite propertiesOf_generateStructSchema. split.
    + intros [x Hx]. apply propsAfter_lookup in Hx.
      destruct Hx as [Hx|(f & Hin & Hvis & Hname & _)];
        [rewrite lookup_empty in Hx; discriminate|].
      destruct (untagged_field f (Htags f Hin)) as (Hv & Hn & _).
      exists f. rewrite <- Hv, <- Hn. auto.
    + intros (f & Hin & Hexp & <-).
      destruct (untagged_field f (Htags f Hin)) as (Hv & Hn & _).
      rewrite <- Hn. apply propsAfter_visible; [exact Hin|]. congruence.
Qed.

(** X23.  Arrays and slices have the same shape: [{type: "array"}] with
    [items] the schema of the element type and no other key; the length of
    an array type leaves no trace.  An element of pointer type is described
    by what it points to. *)
Theorem array_shape (len : nat) (elem : gotype) :
  generateSchema (SliceOf elem) =
    {[ PropType := VString "array"; PropItems := VMap (generateSchema elem) ]}
  /\ generateSchema (ArrayOf len elem) = generateSchema (SliceOf elem)
  /\ (KindOf elem <> Pointer ->
      generateSchema (SliceOf (PointerTo elem)) = generateSchema (SliceOf elem)).
Proof.
  split; [reflexivity|]. split; [reflexivity|].
  intros Hk.
  assert (H : forall e,
             generateSchema (SliceOf e) =
               {[ PropType := VString "array";
                  PropItems := VMap (generateSchema e) ]}) by reflexivity.
  rewrite !H, generateSchema_deref by exact Hk. reflexivity.
Qed.

(** X24.  The keys [min] and [max] are aliases of [minimum] and [maximum]:
    a token behaves the same under either spelling, the value is stored
    under the long name, and no parsed constraint set has a key [min] or
    [max]. *)
Theorem min_max_aliases :
  (forall constraints value_,
      applyConstraint constraints "min" value_
        = applyConstraint constraints "minimum" value_)
  /\ (forall constraints value_,
        applyConstraint constraints "max" value_
          = applyConstraint constraints "maximum" value_)
  /\ (forall constraints value_ num,
        ParseFloat value_ = Some num ->
        applyConstraint constraints "min" value_
          = <["minimum" := VFloat num]> constraints
        /\ applyConstraint constraints "max" value_
           = <["maximum" := VFloat num]> constraints)
  /\ (forall tag,
        parseValidationTag tag !! "min" = None
        /\ parseValidationTag tag !! "max" = None).
Proof.
  split; [reflexivity|]. split; [reflexivity|]. split.
  - intros cs v num Hv. unfold applyConstraint. simpl. rewrite Hv.
    split; reflexivity.
  - intros tag. split; apply parseValidationTag_keys; vm_compute;
      intuition discriminate.
Qed.

End Generator.

Arguments VString {float64} s.
Arguments VFloat {float64} x.
Arguments VInt {float64} n.
Arguments VBool {float64} b.
Arguments VStrings {float64} l.
Arguments VMap {float64} m.
Arguments applyConstraint {float64} ParseFloat constraints key value_.
Arguments parsePart {float64} ParseFloat constraints part.
Arguments parseValidationTag {float64} ParseFloat tag.
Arguments generateSchema {float64} ParseFloat t.
Arguments generateStructSchema {float64} ParseFloat fields.
Arguments Generate {float64} ParseFloat v.
Arguments requiredOf {float64} schema.
Arguments propertiesOf {float64} schema.

(** ** The properties at concrete inputs, and the package's test scenarios

    Number parsing is instantiated with [decimalParseFloat]. *)

(** The policy at the untagged field [Name string]: required. *)
Lemma required_policy_precedence_witness :
  In "Name"
     (requiredOf
        (generateStructSchema decimalParseFloat
           [mkStructField "Name" "" (BasicType BString) []])).
Proof.
  apply (proj1 (proj2 (required_policy_precedence Z decimalParseFloat))).
  exists (mkStructField "Name" "" (BasicType BString) []), "", false.
  repeat split; try reflexivity.
  - left. reflexivity.
  - right. split; [reflexivity | discriminate].
Defined.


(** The naming directive of the tag ["name,omitempty"]. *)
Lemma parseJSONTag_directive_witness :
  "name,omitempty" <> "" /\ "name,omitempty" <> "-"
  /\ exists first rest,
       Split "name,omitempty" "," = first :: rest
       /\ parseJSONTag "name,omitempty" =
            (first,
             existsb (fun part => String.eqb (TrimSpace part) "omitempty") rest,
             false).
Proof.
  split; [discriminate|]. split; [discriminate|].
  apply (proj1 (proj2 (proj2 (parseJSONTag_directive Z decimalParseFloat))));
    discriminate.
Defined.

(** The [required] list of a struct with the one field [ID int `json:"id"`]. *)
Lemma required_key_present_iff_witness :
  generateStructSchema decimalParseFloat
    [mkStructField "ID" "" (BasicType BInt) [("json", "id")]] !! PropRequired
    = Some (VStrings ["id"])
  /\ VStrings (float64 := Z) ["id"] <> VStrings [].
Proof.
  split; [reflexivity|].
  apply (proj1 (proj2 (required_key_present_iff Z decimalParseFloat
                         [mkStructField "ID" "" (BasicType BInt) [("json", "id")]]))
           (VStrings ["id"])).
  reflexivity.
Defined.

(** The shape of [map[string]float64]. *)
Lemma map_shape_witness :
  KindOf (BasicType BString) = String_
  /\ generateSchema decimalParseFloat
       (MapOf (BasicType BString) (BasicType BFloat64)) =
       {[ PropType := VString "object";
          PropAdditionalProperties := VMap {[ PropType := VString "number" ]} ]}.
Proof.
  split; [reflexivity|].
  apply (proj1 (map_shape Z decimalParseFloat
                  (BasicType BString) (BasicType BFloat64))).
  reflexivity.
Defined.

(** The token [" pattern = ^a=b$ "] is dispatched on its trimmed key and value. *)
Lemma token_split_at_first_equals_witness :
  TrimSpace " pattern = ^a=b$ " = "pattern " ++ String "=" " ^a=b$"
  /\ ~ In "="%char (bytesOf "pattern ")
  /\ parsePart decimalParseFloat ∅ " pattern = ^a=b$ "
     = applyConstraint decimalParseFloat ∅ (TrimSpace "pattern ") (TrimSpace " ^a=b$").
Proof.
  split; [reflexivity|].
  assert (H : ~ In "="%char (bytesOf "pattern ")).
  { simpl. intros H. repeat (destruct H as [H|H]; [discriminate H|]). exact H. }
  split; [exact H|].
  apply (proj1 (token_split_at_first_equals Z decimalParseFloat)
           ∅ " pattern = ^a=b$ " "pattern " " ^a=b$" eq_refl H).
Defined.

(** [minimum=1o] does not parse and is dropped. *)
Lemma constraints_dropped_silently_witness :
  In "minimum" ["minimum"; "min"; "maximum"; "max"; "exclusiveMinimum";
                "exclusiveMaximum"; "multipleOf"]
  /\ decimalParseFloat "1o" = None
  /\ applyConstraint decimalParseFloat ∅ "minimum" "1o" = ∅.
Proof.
  assert (H : In "minimum" ["minimum"; "min"; "maximum"; "max";
                            "exclusiveMinimum"; "exclusiveMaximum"; "multipleOf"])
    by (left; reflexivity).
  split; [exact H|]. split; [reflexivity|].
  apply (proj1 (proj2 (proj2 (proj2 (proj2
           (constraints_dropped_silently Z decimalParseFloat)))))
           ∅ "minimum" "1o" H eq_refl).
Defined.

(** The pattern stored for ["pattern=a,b"] has no comma. *)
Lemma stored_strings_have_no_comma_witness :
  parseValidationTag decimalParseFloat "pattern=a,b" !! PropPattern
    = Some (VString "a")
  /\ ~ In ","%char (bytesOf "a").
Proof.
  split; [reflexivity|].
  apply (proj1 (stored_strings_have_no_comma Z decimalParseFloat)
           "pattern=a,b" PropPattern "a").
  reflexivity.
Defined.

(** ** The further properties at concrete inputs *)

(** The shape of [*int32]. *)
Lemma shape_by_kind_witness :
  In (KindOf (deref (PointerTo (BasicType BInt32))))
     [Int; Int8; Int16; Int32; Int64; Uint; Uint8; Uint16; Uint32; Uint64]
  /\ generateSchema decimalParseFloat (PointerTo (BasicType BInt32))
     = {[ PropType := VString "integer" ]}.
Proof.
  assert (H : In (KindOf (deref (PointerTo (BasicType BInt32))))
                 [Int; Int8; Int16; Int32; Int64; Uint; Uint8; Uint16; Uint32;
                  Uint64]) by (simpl; tauto).
  split; [exact H|].
  apply (proj1 (proj2 (shape_by_kind Z decimalParseFloat
                         (PointerTo (BasicType BInt32)))) H).
Defined.

(** [*string] has the schema of [string]. *)
Lemma pointer_looked_through_once_witness :
  KindOf (BasicType BString) <> Pointer
  /\ generateSchema decimalParseFloat (PointerTo (BasicType BString))
     = generateSchema decimalParseFloat (BasicType BString).
Proof.
  assert (H : KindOf (BasicType BString) <> Pointer) by discriminate.
  split; [exact H|].
  apply (proj1 (pointer_looked_through_once Z decimalParseFloat)
           (BasicType BString) H).
Defined.

(** The key [minimum] of the tag ["minimum=1"] is no key of the shape of [int]. *)
Lemma constraints_merge_disjoint_witness :
  is_Some (parseValidationTag decimalParseFloat "minimum=1" !! "minimum")
  /\ generateSchema decimalParseFloat (BasicType BInt) !! "minimum" = None.
Proof.
  assert (H : is_Some (parseValidationTag decimalParseFloat "minimum=1"
                         !! "minimum")) by (eexists; reflexivity).
  split; [exact H|].
  apply (proj1 (constraints_merge_disjoint Z decimalParseFloat)
           (BasicType BInt) "minimum=1" "minimum" H).
Defined.

(** A skipped [Password] field between two others. *)
Lemma hidden_field_leaves_no_trace_witness :
  (IsExported (mkStructField "Password" "" (BasicType BString) [("json", "-")])
     = false
   \/ TagGet (Tag (mkStructField "Password" "" (BasicType BString) [("json", "-")]))
             "json" = "-")
  /\ generateStructSchema decimalParseFloat
       ([mkStructField "ID" "" (BasicType BInt) []]
        ++ mkStructField "Password" "" (BasicType BString) [("json", "-")]
           :: [mkStructField "Name" "" (BasicType BString) []])
     = generateStructSchema decimalParseFloat
         ([mkStructField "ID" "" (BasicType BInt) []]
          ++ [mkStructField "Name" "" (BasicType BString) []]).
Proof.
  assert (H : IsExported (mkStructField "Password" "" (BasicType BString)
                            [("json", "-")]) = false
              \/ TagGet (Tag (mkStructField "Password" "" (BasicType BString)
                                [("json", "-")])) "json" = "-")
    by (right; reflexivity).
  split; [exact H|].
  apply (hidden_field_leaves_no_trace Z decimalParseFloat _ _ _ H).
Defined.

(** The one property of a struct with the field [ID int `json:"id"`]. *)
Lemma properties_are_the_visible_fields_witness :
  propertiesOf
    (generateStructSchema decimalParseFloat
       [mkStructField "ID" "" (BasicType BInt) [("json", "id")]]) !! "id"
    = Some (VMap {[ PropType := VString "integer" ]})
  /\ exists f,
       In f [mkStructField "ID" "" (BasicType BInt) [("json", "id")]]
       /\ visibleField f = true /\ propertyName f = "id"
       /\ VMap {[ PropType := VString "integer" ]}
          = VMap (fieldSchemaOf Z decimalParseFloat f).
Proof.
  assert (H : propertiesOf
                (generateStructSchema decimalParseFloat
                   [mkStructField "ID" "" (BasicType BInt) [("json", "id")]])
                !! "id"
              = Some (VMap {[ PropType := VString "integer" ]}))
    by reflexivity.
  split; [exact H|].
  apply (proj2 (properties_are_the_visible_fields Z decimalParseFloat
                  [mkStructField "ID" "" (BasicType BInt) [("json", "id")]])
           "id" _ H).
Defined.

(** Two fields emitted as [x]: the schema of the second one is stored. *)
Lemma last_field_of_a_name_wins_witness :
  visibleField (mkStructField "B" "" (BasicType BBool) [("json", "x")]) = true
  /\ propertiesOf
       (generateStructSchema decimalParseFloat
          ([mkStructField "A" "" (BasicType BInt) [("json", "x")]]
           ++ mkStructField "B" "" (BasicType BBool) [("json", "x")] :: []))
       !! "x"
     = Some (VMap {[ PropType := VString "boolean" ]}).
Proof.
  assert (H : visibleField (mkStructField "B" "" (BasicType BBool)
                              [("json", "x")]) = true) by reflexivity.
  split; [exact H|].
  apply (proj1 (last_field_of_a_name_wins Z decimalParseFloat)
           [mkStructField "A" "" (BasicType BInt) [("json", "x")]]
           (mkStructField "B" "" (BasicType BBool) [("json", "x")]) [] H).
  intros g [].
Defined.

(** The required name [id] is a property. *)
Lemma required_names_are_properties_witness :
  In "id"
     (requiredOf
        (generateStructSchema decimalParseFloat
           [mkStructField "ID" "" (BasicType BInt) [("json", "id")]]))
  /\ is_Some
       (propertiesOf
          (generateStructSchema decimalParseFloat
             [mkStructField "ID" "" (BasicType BInt) [("json", "id")]])
          !! "id").
Proof.
  assert (H : In "id"
                 (requiredOf
                    (generateStructSchema decimalParseFloat
                       [mkStructField "ID" "" (BasicType BInt) [("json", "id")]])))
    by (left; reflexivity).
  split; [exact H|].
  apply (required_names_are_properties Z decimalParseFloat _ "id" H).
Defined.

(** A struct whose only field is unexported. *)
Lemma struct_without_visible_fields_witness :
  (forall f, In f [mkStructField "hidden" "jsonschema" (BasicType BInt) []] ->
             visibleField f = false)
  /\ generateStructSchema decimalParseFloat
       [mkStructField "hidden" "jsonschema" (BasicType BInt) []]
     = {[ PropType := VString "object";
          PropProperties := VMap ∅;
          PropAdditionalProperties := VBool false ]}.
Proof.
  assert (H : forall f,
             In f [mkStructField "hidden" "jsonschema" (BasicType BInt) []] ->
             visibleField f = false).
  { intros f [<-|[]]. reflexivity. }
  split; [exact H|].
  apply (struct_without_visible_fields Z decimalParseFloat _ H).
Defined.

(** The tag ["-,"] names the property "-". *)
Lemma parseJSONTag_by_segments_witness :
  ~ In ","%char (bytesOf "-")
  /\ parseJSONTag ("-" ++ String "," "") = ("-", false, false).
Proof.
  assert (H : ~ In ","%char (bytesOf "-")).
  { intros [H|[]]. discriminate H. }
  split; [exact H|].
  apply (proj1 (proj2 parseJSONTag_by_segments) "-" "" H).
Defined.

(** The tag ["name"] has no comma and no omitempty flag. *)
Lemma parseJSONTag_flags_witness :
  ~ In ","%char (bytesOf "name")
  /\ snd (fst (parseJSONTag "name")) = false.
Proof.
  assert (H : ~ In ","%char (bytesOf "name")).
  { simpl. intros H. repeat (destruct H as [H|H]; [discriminate H|]). exact H. }
  split; [exact H|].
  apply (proj2 (proj2 (parseJSONTag_flags "name")) H).
Defined.

(** The field [Age int `json:",omitempty"`] is emitted as [Age]. *)
Lemma property_name_fallback_witness :
  TagGet (Tag (mkStructField "Age" "" (BasicType BInt) [("json", ",omitempty")]))
         "json" = String "," "omitempty"
  /\ propertyName (mkStructField "Age" "" (BasicType BInt) [("json", ",omitempty")])
     = "Age".
Proof.
  split; [reflexivity|].
  apply (proj1 (proj2 (property_name_fallback
                         (mkStructField "Age" "" (BasicType BInt)
                            [("json", ",omitempty")])))
           "omitempty" eq_refl).
Defined.

(** After ["pattern=x,pattern=y"] the pattern is ["y"]. *)
Lemma validation_tag_left_to_right_witness :
  ~ In ","%char (bytesOf "pattern=y")
  /\ TrimSpace "pattern=y" = "pattern" ++ String "=" "y"
  /\ ~ In "="%char (bytesOf "pattern")
  /\ TrimSpace "pattern" = "pattern"
  /\ parseValidationTag decimalParseFloat ("pattern=x" ++ String "," "pattern=y")
       !! PropPattern
     = Some (VString (TrimSpace "y")).
Proof.
  assert (H1 : ~ In ","%char (bytesOf "pattern=y")).
  { simpl. intros H. repeat (destruct H as [H|H]; [discriminate H|]). exact H. }
  assert (H2 : ~ In "="%char (bytesOf "pattern")).
  { simpl. intros H. repeat (destruct H as [H|H]; [discriminate H|]). exact H. }
  split; [exact H1|]. split; [reflexivity|]. split; [exact H2|].
  split; [reflexivity|].
  apply (proj2 (proj2 (validation_tag_left_to_right Z decimalParseFloat))
           "pattern=x" "pattern=y" "pattern" "y" H1 eq_refl H2 eq_refl).
Defined.

(** The tag ["required,omitempty"] stores nothing. *)
Lemma bare_tokens_store_nothing_witness :
  (forall part, In part (Split "required,omitempty" ",") ->
                Contains (TrimSpace part) "=" = false)
  /\ parseValidationTag decimalParseFloat "required,omitempty" = ∅.
Proof.
  assert (H : forall part, In part (Split "required,omitempty" ",") ->
                           Contains (TrimSpace part) "=" = false).
  { intros part [<-|[<-|[]]]; reflexivity. }
  split; [exact H|].
  apply (bare_tokens_store_nothing Z decimalParseFloat "required,omitempty" H).
Defined.

(** [maxItems=10] stores the integer 10. *)
Lemma constraint_values_typed_witness :
  parseValidationTag decimalParseFloat "maxItems=10" !! "maxItems"
    = Some (VInt 10)
  /\ ((In "maxItems" ["minimum"; "maximum"; "exclusiveMinimum";
                      "exclusiveMaximum"; "multipleOf"]
       /\ exists num s, VInt 10 = VFloat num /\ decimalParseFloat s = Some num)
      \/ (In "maxItems" ["minItems"; "maxItems"]
          /\ exists n, VInt (float64 := Z) 10 = VInt n
                       /\ (- 2 ^ 63 <= n <= 2 ^ 63 - 1)%Z)
      \/ ("maxItems" = "pattern" /\ exists s, VInt (float64 := Z) 10 = VString s)
      \/ ("maxItems" = "format"
          /\ exists s, VInt (float64 := Z) 10 = VString s
                       /\ In s ["date-time"; "time"; "date"; "duration"; "email";
                                "hostname"; "ipv4"; "ipv6"; "uuid"])).
Proof.
  split; [reflexivity|].
  apply (constraint_values_typed Z decimalParseFloat "maxItems=10" "maxItems"
           (VInt 10)).
  reflexivity.
Defined.

(** The root schema of the empty struct is its schema as an untagged field. *)
Lemma Generate_schema_or_error_witness :
  Generate decimalParseFloat (iface (StructOf []) (StructValue []))
    = (Some (generateSchema decimalParseFloat (StructOf [])), None)
  /\ generateSchema decimalParseFloat (StructOf [])
     = generateSchema decimalParseFloat (StructOf []).
Proof.
  split; [reflexivity|].
  apply (proj1 (proj2 (Generate_schema_or_error Z decimalParseFloat
                         (iface (StructOf []) (StructValue [])))
                  (StructOf []) (StructValue [])
                  (generateSchema decimalParseFloat (StructOf []))
                  eq_refl eq_refl)).
Defined.

(** The part ["omitempty"] of ["name,omitempty"] has no comma. *)
Lemma Split_concat_witness :
  In "omitempty" (Split "name,omitempty" ",")
  /\ ~ In ","%char (bytesOf "omitempty").
Proof.
  assert (H : In "omitempty" (Split "name,omitempty" ","))
    by (right; left; reflexivity).
  split; [exact H|].
  apply (proj2 (Split_concat "name,omitempty") "omitempty" H).
Defined.

(** [pattern= ^a+$ ] stores the trimmed pattern. *)
Lemma stored_strings_are_trimmed_witness :
  parseValidationTag decimalParseFloat "pattern= ^a+$ " !! "pattern"
    = Some (VString "^a+$")
  /\ TrimSpace "^a+$" = "^a+$".
Proof.
  split; [reflexivity|].
  apply (proj2 (stored_strings_are_trimmed Z decimalParseFloat)
           "pattern= ^a+$ " "pattern" "^a+$").
  reflexivity.
Defined.

(** [struct { Name string; Next *int; hidden int }] without tags. *)
Lemma untagged_struct_defaults_witness :
  (forall f,
      In f [mkStructField "Name" "" (BasicType BString) [];
            mkStructField "Next" "" (PointerTo (BasicType BInt)) [];
            mkStructField "hidden" "jsonschema" (BasicType BInt) []] ->
      Tag f = [])
  /\ requiredOf
       (generateStructSchema decimalParseFloat
          [mkStructField "Name" "" (BasicType BString) [];
           mkStructField "Next" "" (PointerTo (BasicType BInt)) [];
           mkStructField "hidden" "jsonschema" (BasicType BInt) []])
     = ["Name"].
Proof.
  assert (H : forall f,
             In f [mkStructField "Name" "" (BasicType BString) [];
                   mkStructField "Next" "" (PointerTo (BasicType BInt)) [];
                   mkStructField "hidden" "jsonschema" (BasicType BInt) []] ->
             Tag f = []).
  { intros f [<-|[<-|[<-|[]]]]; reflexivity. }
  split; [exact H|].
  apply (proj1 (untagged_struct_defaults Z decimalParseFloat _ H)).
Defined.

(** [[]*string] has the shape of [[]string]. *)
Lemma array_shape_witness :
  KindOf (BasicType BString) <> Pointer
  /\ generateSchema decimalParseFloat (SliceOf (PointerTo (BasicType BString)))
     = generateSchema decimalParseFloat (SliceOf (BasicType BString)).
Proof.
  assert (H : KindOf (BasicType BString) <> Pointer) by discriminate.
  split; [exact H|].
  apply (proj2 (proj2 (array_shape Z decimalParseFloat 0 (BasicType BString))) H).
Defined.

(** [min=3] is stored as [minimum]. *)
Lemma min_max_aliases_witness :
  decimalParseFloat "3" = Some 3%Z
  /\ applyConstraint decimalParseFloat ∅ "min" "3"
     = <["minimum" := VFloat 3%Z]> ∅.
Proof.
  split; [reflexivity|].
  apply (proj1 (proj1 (proj2 (proj2 (min_max_aliases Z decimalParseFloat)))
                  ∅ "3" 3%Z eq_refl)).
Defined.

(** ** The package's test scenarios *)

Module Scenarios.

Import Samples.

Example basic_types :
  Generate decimalParseFloat (iface BasicStruct (StructValue [])) =
    (Some {[ "type" := VString "object";
             "properties" :=
               VMap {[ "Name" := VMap {[ "type" := VString "string" ]};
                       "Age" := VMap {[ "type" := VString "integer" ]};
                       "Score" := VMap {[ "type" := VString "number" ]};
                       "Active" := VMap {[ "type" := VString "boolean" ]} ]};
             "required" := VStrings ["Name"; "Age"; "Score"; "Active"];
             "additionalProperties" := VBool false ]},
     None).
Proof. vm_compute. reflexivity. Qed.

Example json_tags :
  generateSchema decimalParseFloat TaggedStruct =
    {[ "type" := VString "object";
       "properties" :=
         VMap {[ "id" := VMap {[ "type" := VString "integer" ]};
                 "name" := VMap {[ "type" := VString "string" ]};
                 "email" := VMap {[ "type" := VString "string" ]} ]};
       "required" := VStrings ["id"; "name"];
       "additionalProperties" := VBool false ]}.
Proof. vm_compute. reflexivity. Qed.

Example nested_struct :
  generateSchema decimalParseFloat User =
    {[ "type" := VString "object";
       "properties" :=
         VMap {[ "Name" := VMap {[ "type" := VString "string" ]};
                 "Address" :=
                   VMap {[ "type" := VString "object";
                           "properties" :=
                             VMap {[ "Street" := VMap {[ "type" := VString "string" ]};
                                     "City" := VMap {[ "type" := VString "string" ]} ]};
                           "required" := VStrings ["Street"; "City"];
                           "additionalProperties" := VBool false ]} ]};
       "required" := VStrings ["Name"; "Address"];
       "additionalProperties" := VBool false ]}.
Proof. vm_compute. reflexivity. Qed.

Example validation_constraints :
  generateSchema decimalParseFloat ValidatedStruct =
    {[ "type" := VString "object";
       "properties" :=
         VMap {[ "ID" := VMap {[ "type" := VString "integer";
                                 "minimum" := VFloat 1%Z;
                                 "maximum" := VFloat 100%Z ]};
                 "Name" := VMap {[ "type" := VString "string";
                                   "pattern" := VString "^[a-zA-Z]+$" ]};
                 "Tags" := VMap {[ "type" := VString "array";
                                   "items" := VMap {[ "type" := VString "string" ]};
                                   "minItems" := VInt 1;
                                   "maxItems" := VInt 10 ]};
                 "optional" := VMap {[ "type" := VString "string" ]} ]};
       "required" := VStrings ["ID"; "Name"; "Tags"];
       "additionalProperties" := VBool false ]}.
Proof. vm_compute. reflexivity. Qed.

Example omission_wins :
  generateSchema decimalParseFloat OmittedRequired =
    {[ "type" := VString "object";
       "properties" :=
         VMap {[ "age" := VMap {[ "type" := VString "integer";
                                  "minimum" := VFloat 0%Z ]} ]};
       "additionalProperties" := VBool false ]}.
Proof. vm_compute. reflexivity. Qed.

Example nil_value :
  Generate decimalParseFloat untypedNil =
    (None, Some "cannot generate schema from nil value").
Proof. reflexivity. Qed.

Example pointer_to_pointer :
  Generate decimalParseFloat
    (iface (PointerTo (PointerTo Address)) (PointerValue NilValue)) =
    (None, Some "expected struct type, got ptr").
Proof. reflexivity. Qed.

Example format_kept_and_dropped :
  parseValidationTag decimalParseFloat "format=email" =
    {[ "format" := VString "email" ]}
  /\ parseValidationTag decimalParseFloat "format=bogus" = ∅.
Proof. split; vm_compute; reflexivity. Qed.

Example arrays_and_maps :
  generateSchema decimalParseFloat ArrayStruct =
    {[ "type" := VString "object";
       "properties" :=
         VMap {[ "Tags" := VMap {[ "type" := VString "array";
                                   "items" := VMap {[ "type" := VString "string" ]} ]};
                 "Numbers" := VMap {[ "type" := VString "array";
                                      "items" := VMap {[ "type" := VString "integer" ]} ]};
                 "Scores" := VMap {[ "type" := VString "array";
                                     "items" := VMap {[ "type" := VString "number" ]} ]} ]};
       "required" := VStrings ["Tags"; "Numbers"; "Scores"];
       "additionalProperties" := VBool false ]}
  /\ generateSchema decimalParseFloat MapStruct =
       {[ "type" := VString "object";
          "properties" :=
            VMap {[ "Metadata" :=
                      VMap {[ "type" := VString "object";
                              "additionalProperties" :=
                                VMap {[ "type" := VString "string" ]} ]};
                    "Config" :=
                      VMap {[ "type" := VString "object";
                              "additionalProperties" :=
                                VMap {[ "type" := VString "integer" ]} ]} ]};
          "required" := VStrings ["Metadata"; "Config"];
          "additionalProperties" := VBool false ]}.
Proof. split; vm_compute; reflexivity. Qed.

Example complex_example :
  generateSchema decimalParseFloat ComplexUser =
    {[ "type" := VString "object";
       "properties" :=
         VMap {[ "id" := VMap {[ "type" := VString "integer" ]};
                 "name" := VMap {[ "type" := VString "string";
                                   "pattern" := VString "^[a-zA-Z ]+$" ]};
                 "email" := VMap {[ "type" := VString "string";
                                    "pattern" := VString "^[a-z]+@[a-z]+\.[a-z]+$";
                                    "format" := VString "email" ]};
                 "age" := VMap {[ "type" := VString "integer";
                                  "minimum" := VFloat 0%Z;
                                  "maximum" := VFloat 150%Z ]};
                 "tags" := VMap {[ "type" := VString "array";
                                   "items" := VMap {[ "type" := VString "string" ]};
                                   "minItems" := VInt 0;
                                   "maxItems" := VInt 20 ]};
                 "metadata" :=
                   VMap {[ "type" := VString "object";
                           "additionalProperties" :=
                             VMap {[ "type" := VString "string" ]} ]};
                 "address" :=
                   VMap {[ "type" := VString "object";
                           "properties" :=
                             VMap {[ "street" := VMap {[ "type" := VString "string" ]};
                                     "city" := VMap {[ "type" := VString "string" ]} ]};
                           "required" := VStrings ["street"; "city"];
                           "additionalProperties" := VBool false ]} ]};
       "required" := VStrings ["id"; "name"; "email"; "tags"; "metadata"; "address"];
       "additionalProperties" := VBool false ]}.
Proof. vm_compute. reflexivity. Qed.

End Scenarios.
